(** * The lateral path planner of selfdrive/controls/lib/pathplanner.py

    A shallow embedding of [limit_ctrl], [calc_states_after_delay] and
    [PathPlanner.update], and the properties of the lane-change state
    machine, the steering-authority limiter and the MPC bookkeeping.

    Numbers.  The planner computes on Python floats.  A finite float is
    modelled by the exact rational it denotes ([Q]); rounding and overflow
    are not modelled.  The one non-finite value the code itself tests for
    is NaN ([math.isnan] over the solver's horizon), so every quantity that
    can descend from the solver's output has type [pyfloat], a rational or
    [NaN], with Python's rules: arithmetic on NaN gives NaN and every
    ordered comparison with NaN is false.  Sensor readings and parameters
    are finite and have type [Q].  A float division by zero raises
    [ZeroDivisionError], an index past the end of a sequence raises
    [IndexError]; both are kept by the [result] type.  Where rounding
    decides a statement, module [Double] gives the lines concerned on
    binary64 floats. *)

From Stdlib Require Import QArith Qminmax Lqa ZArith Lia List Bool.
From Stdlib Require Floats.PrimFloat.
Import ListNotations.
Open Scope Q_scope.

(** ** Python numbers *)

Module Py.

Inductive exn := ZeroDivisionError | IndexError.

Inductive result (A : Type) : Type :=
| Ok (a : A)
| Raise (e : exn).
Arguments Ok {A} a.
Arguments Raise {A} e.

Definition bind {A B} (m : result A) (k : A -> result B) : result B :=
  match m with
  | Ok a => k a
  | Raise e => Raise e
  end.

(** [a < b] and [a > b] on finite floats. *)
Definition ltb (a b : Q) : bool := negb (Qle_bool b a).
Definition gtb (a b : Q) : bool := ltb b a.

(** The builtin [max(a, b)] keeps [a] unless [b > a]; [min(a, b)] keeps
    [a] unless [b < a]. *)
Definition max (a b : Q) : Q := if gtb b a then b else a.
Definition min (a b : Q) : Q := if ltb b a then b else a.

(** Truth value of a number: anything but zero. *)
Definition truthy (a : Q) : bool := negb (Qeq_bool a 0).

(** [a / b] on finite floats. *)
Definition div (a b : Q) : result Q :=
  if Qeq_bool b 0 then Raise ZeroDivisionError else Ok (a / b).

(** [l[i]] *)
Definition index {A} (l : list A) (i : nat) : result A :=
  match nth_error l i with
  | Some a => Ok a
  | None => Raise IndexError
  end.

(** A float that may be NaN. *)
Inductive pyfloat := Fin (q : Q) | NaN.

Definition fadd (a b : pyfloat) : pyfloat :=
  match a, b with Fin p, Fin q => Fin (p + q) | _, _ => NaN end.
Definition fsub (a b : pyfloat) : pyfloat :=
  match a, b with Fin p, Fin q => Fin (p - q) | _, _ => NaN end.
Definition fmul (a b : pyfloat) : pyfloat :=
  match a, b with Fin p, Fin q => Fin (p * q) | _, _ => NaN end.
Definition fgt (a b : pyfloat) : bool :=
  match a, b with Fin p, Fin q => gtb p q | _, _ => false end.
Definition flt (a b : pyfloat) : bool :=
  match a, b with Fin p, Fin q => ltb p q | _, _ => false end.
Definition isnan (a : pyfloat) : bool :=
  match a with NaN => true | Fin _ => false end.

(** [a == b] on floats: NaN equals nothing, itself included. *)
Definition feq (a b : pyfloat) : Prop :=
  match a, b with Fin p, Fin q => p == q | _, _ => False end.

(** [math.pi], [math.radians], [math.degrees]: CPython multiplies by the
    constants [pi / 180] and [180 / pi]. *)
Definition pi : Q := 3.141592653589793.
Definition radians (x : Q) : Q := x * (pi / 180).
Definition degrees (x : pyfloat) : pyfloat := fmul x (Fin (180 / pi)).

End Py.

Import Py.

Notation "x <- m ;; k" := (bind m (fun x => k))
  (at level 61, m at next level, right associativity).

Declare Scope py_scope.
Delimit Scope py_scope with py.
Infix "+!" := fadd (at level 50, left associativity) : py_scope.
Infix "-!" := fsub (at level 50, left associativity) : py_scope.
Infix "*!" := fmul (at level 40, left associativity) : py_scope.
Infix ">!" := fgt (at level 70, no associativity) : py_scope.
Infix "<!" := flt (at level 70, no associativity) : py_scope.
Infix "<?" := ltb (at level 70, no associativity) : Q_scope.
Infix ">?" := gtb (at level 70, no associativity) : Q_scope.
Open Scope py_scope.

(** Modelled from the spec: common.numpy_fast.interp is not part of the
    sources at hand.  Section 9 of the specification describes it as
    piecewise-linear interpolation over the breakpoints [xp] with values
    [fp], "with flat-extrapolation outside the domain": below the first
    breakpoint the first value, above the last breakpoint the last value. *)
Fixpoint interp_from (x x0 f0 : Q) (xp fp : list Q) : Q :=
  match xp, fp with
  | x1 :: xp', f1 :: fp' =>
      if x >? x1 then interp_from x x1 f1 xp' fp'
      else (x - x0) * (f1 - f0) / (x1 - x0) + f0
  | _, _ => f0
  end.

Definition interp (x : Q) (xp fp : list Q) : Q :=
  match xp, fp with
  | x0 :: xp', f0 :: fp' => if x >? x0 then interp_from x x0 f0 xp' fp' else f0
  | _, _ => 0
  end.

(** Modelled from the spec: common.realtime.DT_MDL and
    selfdrive.config.Conversions.KPH_TO_MS are imported constants.
    Section 3: "DT_MDL = 0.05 s" and "LANE_CHANGE_SPEED_MIN = 60 km/h in
    m/s (about 16.667 m/s)". *)
Definition DT_MDL : Q := 0.05.
Definition KPH_TO_MS : Q := 1 / 3.6.

(** ** Module constants (lines 15-45) *)

Inductive LaneChangeState :=
  off | preLaneChange | laneChangeStarting | laneChangeFinishing | laneChangeDone.

Inductive LaneChangeDirection := none | left | right.

Inductive Desire := Desire_none | Desire_laneChangeLeft | Desire_laneChangeRight.

Definition LANE_CHANGE_SPEED_MIN : Q := 60 * KPH_TO_MS.
Definition LANE_CHANGE_TIME_MAX : Q := 10.

Definition DESIRES (d : LaneChangeDirection) (s : LaneChangeState) : Desire :=
  match d, s with
  | none, _ => Desire_none
  | left, (off | preLaneChange) => Desire_none
  | left, (laneChangeStarting | laneChangeFinishing | laneChangeDone) =>
      Desire_laneChangeLeft
  | right, (off | preLaneChange) => Desire_none
  | right, (laneChangeStarting | laneChangeFinishing | laneChangeDone) =>
      Desire_laneChangeRight
  end.

Definition LaneChangeState_eqb (a b : LaneChangeState) : bool :=
  match a, b with
  | off, off | preLaneChange, preLaneChange
  | laneChangeStarting, laneChangeStarting
  | laneChangeFinishing, laneChangeFinishing
  | laneChangeDone, laneChangeDone => true
  | _, _ => false
  end.

Definition LaneChangeDirection_eqb (a b : LaneChangeDirection) : bool :=
  match a, b with
  | none, none | left, left | right, right => true
  | _, _ => false
  end.

(** ** The solver's data (libmpc: [state_t] and [log_t]) *)

Record state_t := {
  x : pyfloat;
  y : pyfloat;
  psi : pyfloat;
  delta : pyfloat
}.

(** The part of [log_t] the planner reads: the steering-angle and
    steering-rate horizons and the cost. *)
Record log_t := {
  log_delta : list pyfloat;
  log_rate : list pyfloat;
  log_cost : pyfloat
}.

(** [state[0].delta = d] *)
Definition set_delta (state : state_t) (d : pyfloat) : state_t :=
  {| x := x state; y := y state; psi := psi state; delta := d |}.

(** ** calc_states_after_delay (lines 48-51)

    [states[0].x] is assigned before the division that can raise; an
    exception leaves the caller without a result, so the partly updated
    state is not observed. *)
Definition calc_states_after_delay (states : state_t)
    (v_ego steer_angle curvature_factor steer_ratio delay : Q) : result state_t :=
  let x' := Fin (v_ego * delay) in
  q <- div (v_ego * curvature_factor * radians steer_angle) steer_ratio ;;
  Ok {| x := x'; y := y states; psi := Fin (q * delay); delta := delta states |}.

(** ** PathPlanner.limit_ctrl (lines 79-86) *)
Definition limit_ctrl (value limit offset : pyfloat) : pyfloat :=
  let p_limit := offset +! limit in
  let m_limit := offset -! limit in
  if value >! p_limit then p_limit
  else if value <! m_limit then m_limit
  else value.

(** ** Messages read on a tick (section 6.1 of the specification) *)

Record CarState := {
  vEgo : Q;
  steeringAngle : Q;
  steeringTorque : Q;
  steeringPressed : bool;
  leftBlinker : bool;
  rightBlinker : bool;
  leftBlindspot : bool;
  rightBlindspot : bool
}.

Record LiveParameters := {
  angleOffset : Q;
  stiffnessFactor : Q;
  steerRatio : Q;
  valid : bool
}.

(** [sm]: the messages of one tick.  [sm['model']] is only handed to the
    lane planner, it is part of [LP_parse_model] below. *)
Record SubMaster := {
  carState : CarState;
  controlsState_active : bool;
  liveParameters : LiveParameters;
  all_alive_and_valid : bool
}.

(** [CP], the car parameters, and the parameter store read by [__init__]:
    whether [LaneChangeEnabled] holds [b'1'], and the auto-start delay. *)
Record CarParams := {
  steerRateCost : Q;
  steerActuatorDelay : Q
}.

Record Params := {
  LaneChangeEnabled : bool;
  OpkrAutoLanechangedelay : Q
}.

(** ** Collaborators (sections 6.2 to 6.4 of the specification)

    The vehicle model, the lane planner and the solver are not part of the
    planner.  Each is represented by what the planner can observe of it:
    the attributes it reads and, per tick, the effect of each call. *)

Record VehicleModel := {
  sR : Q;
  curvature_factor : Q -> Q
}.

Record LanePlanner := {
  l_poly : list Q;
  r_poly : list Q;
  d_poly : list Q;
  l_prob : Q;
  r_prob : Q;
  l_lane_change_prob : Q;
  r_lane_change_prob : Q;
  lane_width : Q
}.

Record Collaborators := {
  (** [VM] after [VM.update_params(x, sr)] *)
  VM_update_params : Q -> Q -> VehicleModel;
  (** [self.LP] after [self.LP.parse_model(sm['model'])] *)
  LP_parse_model : LanePlanner -> LanePlanner;
  (** [self.LP] after [self.LP.update_d_poly(v_ego)] *)
  LP_update_d_poly : LanePlanner -> Q -> LanePlanner;
  (** [self.mpc_solution[0]] after [run_mpc(cur_state, ..., curvature_factor,
      v_ego_mpc, ...)]; polynomials, probabilities and lane width are read
      from the lane planner *)
  libmpc_run_mpc : state_t -> LanePlanner -> Q -> Q -> log_t;
  sec_since_boot : Q
}.

(** ** The published [pathPlan] message (lines 282-299) *)

Record PathPlan := {
  plan_valid : bool;
  pathPlan_laneWidth : Q;
  pathPlan_dPoly : list Q;
  pathPlan_lPoly : list Q;
  pathPlan_lProb : Q;
  pathPlan_rPoly : list Q;
  pathPlan_rProb : Q;
  pathPlan_angleSteers : pyfloat;
  pathPlan_rateSteers : pyfloat;
  pathPlan_angleOffset : Q;
  pathPlan_mpcSolutionValid : bool;
  pathPlan_paramsValid : bool;
  pathPlan_desire : Desire;
  pathPlan_laneChangeState : LaneChangeState;
  pathPlan_laneChangeDirection : LaneChangeDirection
}.

(** ** PathPlanner: the attributes set by [__init__] and [setup_mpc] *)

Record PathPlanner := {
  LP : LanePlanner;
  last_cloudlog_t : Q;
  steer_rate_cost : Q;
  solution_invalid_cnt : Z;
  lane_change_enabled : bool;
  lane_change_auto_delay : Q;
  lane_change_state : LaneChangeState;
  lane_change_direction : LaneChangeDirection;
  lane_change_run_timer : Q;
  lane_change_wait_timer : Q;
  lane_change_ll_prob : Q;
  prev_one_blinker : bool;
  cur_state : state_t;
  angle_steers_des : pyfloat;
  angle_steers_des_mpc : pyfloat;
  angle_steers_des_prev : pyfloat;
  angle_steers_des_time : pyfloat
}.

(** [PathPlanner.__init__] (lines 55-77) with [setup_mpc] (lines 88-102);
    [LP0] is the freshly constructed [LanePlanner()]. *)
Definition init (CP : CarParams) (params : Params) (LP0 : LanePlanner) : PathPlanner :=
  {| LP := LP0;
     last_cloudlog_t := 0;
     steer_rate_cost := steerRateCost CP;
     solution_invalid_cnt := 0;
     lane_change_enabled := LaneChangeEnabled params;
     lane_change_auto_delay := OpkrAutoLanechangedelay params;
     lane_change_state := off;
     lane_change_direction := none;
     lane_change_run_timer := 0;
     lane_change_wait_timer := 0;
     lane_change_ll_prob := 1;
     prev_one_blinker := false;
     cur_state := {| x := Fin 0; y := Fin 0; psi := Fin 0; delta := Fin 0 |};
     angle_steers_des := Fin 0;
     angle_steers_des_mpc := Fin 0;
     angle_steers_des_prev := Fin 0;
     angle_steers_des_time := Fin 0 |}.

(** ** PathPlanner.update: the lane-change logic (lines 126-194) *)

(** Lines 130-133: the direction latch. *)
Definition latch_direction (cs : CarState) (d : LaneChangeDirection)
  : LaneChangeDirection :=
  if leftBlinker cs then left
  else if rightBlinker cs then right
  else d.

(** Line 135: the condition of the first branch. *)
Definition global_override (self : PathPlanner) (sm : SubMaster) : bool :=
  let one_blinker := xorb (leftBlinker (carState sm)) (rightBlinker (carState sm)) in
  negb (controlsState_active sm)
  || (lane_change_run_timer self >? LANE_CHANGE_TIME_MAX)
  || negb one_blinker
  || negb (lane_change_enabled self).

(** Lines 139-187: the [else] branch.  It returns the new
    [lane_change_state], [lane_change_ll_prob] and [lane_change_wait_timer];
    [direction] is the direction after the latch. *)
Definition state_transitions (self : PathPlanner) (sm : SubMaster)
    (lp : LanePlanner) (direction : LaneChangeDirection)
  : LaneChangeState * Q * Q :=
  let cs := carState sm in
  let v_ego := vEgo cs in
  let v_ego_kph := v_ego * 3.61 in
  let one_blinker := xorb (leftBlinker cs) (rightBlinker cs) in
  let below_lane_change_speed := v_ego <? LANE_CHANGE_SPEED_MIN in
  let torque_applied :=
    steeringPressed cs
    && (((steeringTorque cs >? 0) && LaneChangeDirection_eqb direction left)
        || ((steeringTorque cs <? 0) && LaneChangeDirection_eqb direction right)) in
  let blindspot_detected :=
    (leftBlindspot cs && LaneChangeDirection_eqb direction left)
    || (rightBlindspot cs && LaneChangeDirection_eqb direction right) in
  let lane_change_prob := l_lane_change_prob lp + r_lane_change_prob lp in
  let st := lane_change_state self in
  let ll_prob := lane_change_ll_prob self in
  let wait_timer := lane_change_wait_timer self in
  if LaneChangeState_eqb st off && one_blinker
     && negb (prev_one_blinker self) && negb below_lane_change_speed
  then (preLaneChange, 1, 0)
  else match st with
  | preLaneChange =>
      let wait_timer := wait_timer + DT_MDL in
      if negb one_blinker || below_lane_change_speed then (off, ll_prob, wait_timer)
      else if negb blindspot_detected
              && (torque_applied
                  || (truthy (lane_change_auto_delay self)
                      && (wait_timer >? lane_change_auto_delay self)))
      then (laneChangeStarting, ll_prob, wait_timer)
      else (preLaneChange, ll_prob, wait_timer)
  | laneChangeStarting =>
      let xp := [40; 60; 70; 80] in
      let fp2 := [0.5; 1; 1.5; 2] in
      let lane_time := interp v_ego_kph xp fp2 in
      let ll_prob := max (ll_prob - lane_time * DT_MDL) 0 in
      if (lane_change_prob <? 0.02) && (ll_prob <? 0.01)
      then (laneChangeFinishing, ll_prob, wait_timer)
      else (laneChangeStarting, ll_prob, wait_timer)
  | laneChangeFinishing =>
      let ll_prob := min (ll_prob + DT_MDL) 1 in
      if one_blinker && (ll_prob >? 0.99)
      then (laneChangeDone, ll_prob, wait_timer)
      else (laneChangeFinishing, ll_prob, wait_timer)
  | laneChangeDone =>
      if negb one_blinker then (off, ll_prob, wait_timer)
      else (laneChangeDone, ll_prob, wait_timer)
  | off => (off, ll_prob, wait_timer)
  end.

(** ** PathPlanner.update: the authority limiter (lines 225-241)

    [org] is [org_angle_steers_des], equal to [self.angle_steers_des_mpc]
    on entry; the result is [self.angle_steers_des_mpc] on exit. *)
Definition limit_authority (cs : CarState) (v_ego_kph : Q) (org : pyfloat)
  : pyfloat :=
  let angle_steers := Fin (steeringAngle cs) in
  if steeringPressed cs then
    let delta_steer := org -! angle_steers in
    let xp := [-450; 0; 450] in
    let fp2 := [5; 0; 5] in
    let limit_steers := Fin (interp (steeringTorque cs) xp fp2) in
    if steeringTorque cs <? 0 then
      if delta_steer >! Fin 0 then limit_ctrl org limit_steers angle_steers
      else org
    else if steeringTorque cs >? 0 then
      if delta_steer <! Fin 0 then limit_ctrl org limit_steers angle_steers
      else org
    else org
  else if v_ego_kph <? 30 then
    let xp := [5; 15; 30] in
    let fp2 := [1; 3; 5] in
    let limit_steers := Fin (interp v_ego_kph xp fp2) in
    limit_ctrl org limit_steers angle_steers
  else org.

(** ** PathPlanner.update (lines 104-301)

    One tick: the new planner and the [pathPlan] message sent.  The two
    calls without a result the planner reads, [libmpc.init] after a NaN
    solution and [cloudlog.warning], and the optional [liveMpc] message
    ([LOG_MPC]) leave no trace in either. *)
Definition update (self : PathPlanner) (sm : SubMaster) (CP : CarParams)
    (ext : Collaborators) : result (PathPlanner * PathPlan) :=
  let cs := carState sm in
  let v_ego := vEgo cs in
  let v_ego_kph := v_ego * 3.61 in
  let angle_steers := steeringAngle cs in
  let active := controlsState_active sm in
  let angle_offset := angleOffset (liveParameters sm) in
  (* Run MPC *)
  let angle_steers_des_prev' := angle_steers_des_mpc self in
  (* Update vehicle model *)
  let x := max (stiffnessFactor (liveParameters sm)) 0.1 in
  let sr := max (steerRatio (liveParameters sm)) 0.1 in
  let VM := VM_update_params ext x sr in
  let curvature_factor := curvature_factor VM v_ego in
  let lp := LP_parse_model ext (LP self) in
  (* Lane change logic *)
  let one_blinker := xorb (leftBlinker cs) (rightBlinker cs) in
  let direction := latch_direction cs (lane_change_direction self) in
  let '(state', direction', ll_prob', wait_timer') :=
    if global_override self sm
    then (off, none, lane_change_ll_prob self, lane_change_wait_timer self)
    else let '(s, p, w) := state_transitions self sm lp direction in
         (s, direction, p, w) in
  let run_timer' :=
    match state' with
    | off | preLaneChange => 0
    | _ => lane_change_run_timer self + DT_MDL
    end in
  let desire := DESIRES direction' state' in
  (* Turn off lanes during lane change *)
  let lp :=
    match desire with
    | Desire_laneChangeRight | Desire_laneChangeLeft =>
        {| l_poly := l_poly lp; r_poly := r_poly lp; d_poly := d_poly lp;
           l_prob := l_prob lp * ll_prob';
           r_prob := r_prob lp * ll_prob';
           l_lane_change_prob := l_lane_change_prob lp;
           r_lane_change_prob := r_lane_change_prob lp;
           lane_width := lane_width lp |}
    | Desire_none => lp
    end in
  let lp := LP_update_d_poly ext lp v_ego in
  (* account for actuation delay *)
  cur <- calc_states_after_delay (cur_state self) v_ego (angle_steers - angle_offset)
           curvature_factor (sR VM) (steerActuatorDelay CP) ;;
  let v_ego_mpc := max v_ego 5 in
  let mpc_solution := libmpc_run_mpc ext cur lp curvature_factor v_ego_mpc in
  (* reset to current steer angle if not active or overriding *)
  desired <-
    (if active then
       delta_desired <- index (log_delta mpc_solution) 1 ;;
       rate0 <- index (log_rate mpc_solution) 0 ;;
       Ok (delta_desired, degrees (rate0 *! Fin (sR VM)))
     else
       q <- div (radians (angle_steers - angle_offset)) (sR VM) ;;
       Ok (Fin q, Fin 0)) ;;
  let '(delta_desired, rate_desired) := desired in
  let org_angle_steers_des :=
    degrees (delta_desired *! Fin (sR VM)) +! Fin angle_offset in
  (* atom *)
  let angle_steers_des_mpc' := limit_authority cs v_ego_kph org_angle_steers_des in
  (* Check for infeasable MPC solution *)
  let mpc_nans := existsb isnan (log_delta mpc_solution) in
  let t := sec_since_boot ext in
  delta' <-
    (if mpc_nans then
       q <- div (radians (angle_steers - angle_offset)) (sR VM) ;; Ok (Fin q)
     else Ok delta_desired) ;;
  let last_cloudlog_t' :=
    if mpc_nans && (t >? last_cloudlog_t self + 5) then t
    else last_cloudlog_t self in
  let solution_invalid_cnt' :=
    if (log_cost mpc_solution >! Fin 20000) || mpc_nans
    then (solution_invalid_cnt self + 1)%Z
    else 0%Z in
  let plan_solution_valid := (solution_invalid_cnt' <? 3)%Z in
  Ok ({| LP := lp;
         last_cloudlog_t := last_cloudlog_t';
         steer_rate_cost := steer_rate_cost self;
         solution_invalid_cnt := solution_invalid_cnt';
         lane_change_enabled := lane_change_enabled self;
         lane_change_auto_delay := lane_change_auto_delay self;
         lane_change_state := state';
         lane_change_direction := direction';
         lane_change_run_timer := run_timer';
         lane_change_wait_timer := wait_timer';
         lane_change_ll_prob := ll_prob';
         prev_one_blinker := one_blinker;
         cur_state := set_delta cur delta';
         angle_steers_des := angle_steers_des self;
         angle_steers_des_mpc := angle_steers_des_mpc';
         angle_steers_des_prev := angle_steers_des_prev';
         angle_steers_des_time := angle_steers_des_time self |},
      {| plan_valid := all_alive_and_valid sm;
         pathPlan_laneWidth := lane_width lp;
         pathPlan_dPoly := d_poly lp;
         pathPlan_lPoly := l_poly lp;
         pathPlan_lProb := l_prob lp;
         pathPlan_rPoly := r_poly lp;
         pathPlan_rProb := r_prob lp;
         pathPlan_angleSteers := angle_steers_des_mpc';
         pathPlan_rateSteers := rate_desired;
         pathPlan_angleOffset := angle_offset;
         pathPlan_mpcSolutionValid := plan_solution_valid;
         pathPlan_paramsValid := valid (liveParameters sm);
         pathPlan_desire := desire;
         pathPlan_laneChangeState := state';
         pathPlan_laneChangeDirection := direction' |}).

(** ** Runs: a planner driven through a list of ticks *)

Record Tick := {
  tick_sm : SubMaster;
  tick_CP : CarParams;
  tick_ext : Collaborators
}.

Definition step (self : PathPlanner) (t : Tick) : result (PathPlanner * PathPlan) :=
  update self (tick_sm t) (tick_CP t) (tick_ext t).

(** The planner after the last tick and the messages sent, oldest first;
    an exception ends the run. *)
Fixpoint run (self : PathPlanner) (ticks : list Tick)
  : result (PathPlanner * list PathPlan) :=
  match ticks with
  | [] => Ok (self, [])
  | t :: ticks' =>
      r <- step self t ;;
      rs <- run (fst r) ticks' ;;
      Ok (fst rs, snd r :: snd rs)
  end.

Definition one_blinker (sm : SubMaster) : bool :=
  xorb (leftBlinker (carState sm)) (rightBlinker (carState sm)).

(** ** Concrete collaborators and ticks, for the worked examples *)

Module Scenario.

Definition VM (x sr : Q) : VehicleModel :=
  {| sR := sr; curvature_factor := fun _ => 1 |}.

Definition LP0 : LanePlanner :=
  {| l_poly := [0; 0; 0; 0]; r_poly := [0; 0; 0; 0]; d_poly := [0; 0; 0; 0];
     l_prob := 1; r_prob := 1;
     l_lane_change_prob := 0; r_lane_change_prob := 0;
     lane_width := 3.7 |}.

(** A solver that answers with the given horizon whatever it is asked. *)
Definition solver (sol : log_t) : Collaborators :=
  {| VM_update_params := VM;
     LP_parse_model := fun lp => lp;
     LP_update_d_poly := fun lp _ => lp;
     libmpc_run_mpc := fun _ _ _ _ => sol;
     sec_since_boot := 100 |}.

Definition horizon (d1 : pyfloat) (cost : Q) : log_t :=
  {| log_delta := [Fin 0; d1; Fin 0]; log_rate := [Fin 0; Fin 0]; log_cost := Fin cost |}.

Definition CP : CarParams := {| steerRateCost := 1; steerActuatorDelay := 0.1 |}.

Definition params : Params :=
  {| LaneChangeEnabled := true; OpkrAutoLanechangedelay := 2 |}.

Definition planner : PathPlanner := init CP params LP0.

Definition car (v angle torque : Q) (pressed lblink rblink : bool) : CarState :=
  {| vEgo := v; steeringAngle := angle; steeringTorque := torque;
     steeringPressed := pressed;
     leftBlinker := lblink; rightBlinker := rblink;
     leftBlindspot := false; rightBlindspot := false |}.

Definition messages (cs : CarState) (act : bool) : SubMaster :=
  {| carState := cs; controlsState_active := act;
     liveParameters := {| angleOffset := 0; stiffnessFactor := 1;
                          steerRatio := 15; valid := true |};
     all_alive_and_valid := true |}.

Definition tick (cs : CarState) (act : bool) (sol : log_t) : Tick :=
  {| tick_sm := messages cs act; tick_CP := CP; tick_ext := solver sol |}.

(** Left blinker on at 20 m/s, hands off; the same with the driver
    pushing left; the same blinker at 10 m/s, below the lane-change
    speed. *)
Definition blinker_fast : Tick :=
  tick (car 20 0 0 false true false) true (horizon (Fin 0) 0).
Definition blinker_fast_torque : Tick :=
  tick (car 20 0 100 true true false) true (horizon (Fin 0) 0).
Definition blinker_slow : Tick :=
  tick (car 10 0 0 false true false) true (horizon (Fin 0) 0).

(** Left blinker on at 20 m/s, hands off, with the left blindspot sensor
    asserted. *)
Definition blinker_fast_blindspot : Tick :=
  tick {| vEgo := 20; steeringAngle := 0; steeringTorque := 0;
          steeringPressed := false;
          leftBlinker := true; rightBlinker := false;
          leftBlindspot := true; rightBlindspot := false |}
       true (horizon (Fin 0) 0).

(** No blinker, engaged, 10 m/s: a good solution, one with a cost above
    the threshold, one with a NaN in the horizon. *)
Definition cruise (sol : log_t) : Tick :=
  tick (car 10 0 0 false false false) true sol.
Definition good : log_t := horizon (Fin 0) 0.
Definition costly : log_t := horizon (Fin 0) 30000.
Definition broken : log_t := horizon NaN 0.

(** Engaged at a standstill with the solver asking for 0.01 rad at the
    road wheels (about 8.6 degrees at the steering wheel); engaged at
    20 m/s with the same request and the driver pulling right with full
    torque; disengaged at 20 m/s with the wheel held at 7 degrees. *)
Definition crawl : Tick :=
  tick (car 0 0 0 false false false) true (horizon (Fin 0.01) 0).
Definition fight : Tick :=
  tick (car 20 0 (-450) true false false) true (horizon (Fin 0.01) 0).
Definition disengaged : Tick :=
  tick (car 20 7 (-450) true false false) false (horizon (Fin 0.01) 0).

End Scenario.

(** ** Statements about the two leaf functions *)

(** [limit_ctrl value limit offset] is [value] clamped into
    [[offset - limit, offset + limit]]: a finite result in the interval,
    and [value] itself when [value] is in the interval. *)
Definition clamps_into_window (value limit offset : Q) : Prop :=
  exists r : Q,
    limit_ctrl (Fin value) (Fin limit) (Fin offset) = Fin r
    /\ (offset - limit <= r /\ r <= offset + limit)
    /\ (offset - limit <= value /\ value <= offset + limit -> r = value).

(** The delay compensator returns a state with [x] and [psi] set as
    section 4.2 gives them, and [y] and [delta] as they were. *)
Definition compensates_delay (states : state_t)
    (v_ego steer_angle curvature_factor steer_ratio delay : Q) : Prop :=
  exists states' : state_t,
    calc_states_after_delay states v_ego steer_angle curvature_factor steer_ratio delay
      = Ok states'
    /\ x states' = Fin (v_ego * delay)
    /\ psi states'
       = Fin (v_ego * curvature_factor * radians steer_angle / steer_ratio * delay)
    /\ y states' = y states
    /\ delta states' = delta states.

(** ** Statements about the lane-change state machine *)

(** Section 3, invariant 3 together with section 8: in [Off] the direction
    is [None] and the run timer is zero. *)
Definition off_is_idle (self : PathPlanner) : Prop :=
  lane_change_state self = off ->
  lane_change_direction self = none /\ lane_change_run_timer self = 0.

(** The four conditions of the global override, as section 4.3 lists them. *)
Definition override_condition (self : PathPlanner) (sm : SubMaster) : Prop :=
  controlsState_active sm = false
  \/ LANE_CHANGE_TIME_MAX < lane_change_run_timer self
  \/ one_blinker sm = false
  \/ lane_change_enabled self = false.

(** Section 4.3, the lane-line-probability fader in the words of the
    specification: what [lane_change_ll_prob] is after a tick that starts
    in [self] and reads [sm]. *)
Definition ll_prob_rule (self : PathPlanner) (sm : SubMaster) : Q :=
  let v_ego := vEgo (carState sm) in
  if global_override self sm then lane_change_ll_prob self
  else match lane_change_state self with
       | off =>
           (* entering PreLaneChange resets it *)
           if one_blinker sm && negb (prev_one_blinker self)
              && negb (v_ego <? LANE_CHANGE_SPEED_MIN)
           then 1 else lane_change_ll_prob self
       | laneChangeStarting =>
           let rate := interp (v_ego * 3.61) [40; 60; 70; 80] [0.5; 1; 1.5; 2] in
           Qmax 0 (lane_change_ll_prob self - rate * DT_MDL)
       | laneChangeFinishing => Qmin 1 (lane_change_ll_prob self + DT_MDL)
       | preLaneChange | laneChangeDone => lane_change_ll_prob self
       end.

Definition in_unit_interval (p : Q) : Prop := 0 <= p /\ p <= 1.

(** ** Statements about the steering command *)

(** [VM] as the tick sees it after line 120. *)
Definition VM_of (sm : SubMaster) (ext : Collaborators) : VehicleModel :=
  VM_update_params ext (max (stiffnessFactor (liveParameters sm)) 0.1)
                       (max (steerRatio (liveParameters sm)) 0.1).

(** [sol] is what the solver of this tick answers to some call. *)
Definition solved_by (ext : Collaborators) (sol : log_t) : Prop :=
  exists (st : state_t) (lp : LanePlanner) (k v : Q),
    sol = libmpc_run_mpc ext st lp k v.

(** The solver's answer on the tick that leads from [self] to [self']:
    [run_mpc] is called (line 208) with the delay-compensated state, which
    is the final [cur_state] but for [delta], still the one of [self];
    with the lane planner as the tick leaves it; with the curvature factor
    and with [max(v_ego, 5.0)]. *)
Definition solution_of (self self' : PathPlanner) (sm : SubMaster)
    (ext : Collaborators) : log_t :=
  libmpc_run_mpc ext
    (set_delta (cur_state self') (delta (cur_state self)))
    (LP self')
    (curvature_factor (VM_of sm ext) (vEgo (carState sm)))
    (max (vEgo (carState sm)) 5).

(** [radians(angle_steers - angle_offset) / sr]: the measured wheel angle
    as a road-wheel angle. *)
Definition measured_delta (sm : SubMaster) (ext : Collaborators) : Q :=
  radians (steeringAngle (carState sm) - angleOffset (liveParameters sm))
  / sR (VM_of sm ext).

(** [degrees(d * sr) + angle_offset]: a road-wheel angle as a steering
    command in degrees. *)
Definition command_of (d : pyfloat) (sm : SubMaster) (ext : Collaborators) : pyfloat :=
  degrees (d *! Fin (sR (VM_of sm ext))) +! Fin (angleOffset (liveParameters sm)).

(** Section 3, invariant 6: [cur_state.delta] is the published command. *)
Definition delta_is_command (self' : PathPlanner) (m : PathPlan)
    (sm : SubMaster) (ext : Collaborators) : Prop :=
  feq (pathPlan_angleSteers m) (command_of (delta (cur_state self')) sm ext).

(** Section 4.5, step 8: a solution counts as bad when its cost exceeds
    20000 or its [delta] horizon has a NaN. *)
Definition mpc_nans (sol : log_t) : bool := existsb isnan (log_delta sol).

Definition is_bad (sol : log_t) : bool :=
  (log_cost sol >! Fin 20000) || mpc_nans sol.

(** Section 4.6 in the words of the specification.  The driver's torque
    opposes the planner when their signs differ. *)
Definition torque_opposes (cs : CarState) (org : pyfloat) : Prop :=
  let delta_steer := org -! Fin (steeringAngle cs) in
  (steeringTorque cs < 0 /\ (delta_steer >! Fin 0) = true)
  \/ (0 < steeringTorque cs /\ (delta_steer <! Fin 0) = true).

(** [out] is [org] clamped with [limit] around [angle_steers]: the result
    of [limit_ctrl], which is the upper edge of the window for a request
    above it, the lower edge for a request below it, and the request
    itself for a request inside the window; a NaN request stays NaN. *)
Definition clamped_around (out org : pyfloat) (limit angle_steers : Q) : Prop :=
  out = limit_ctrl org (Fin limit) (Fin angle_steers)
  /\ match org with
     | NaN => out = NaN
     | Fin o =>
         (angle_steers + limit < o -> out = Fin (angle_steers + limit))
         /\ (o < angle_steers - limit -> out = Fin (angle_steers - limit))
         /\ (angle_steers - limit <= o /\ o <= angle_steers + limit -> out = Fin o)
     end.

Definition authority_regimes (cs : CarState) (v_kph : Q) (org out : pyfloat) : Prop :=
  (steeringPressed cs = true ->
     (torque_opposes cs org ->
      clamped_around out org
        (interp (steeringTorque cs) [-450; 0; 450] [5; 0; 5]) (steeringAngle cs))
     /\ (~ torque_opposes cs org -> out = org))
  /\ (steeringPressed cs = false ->
     (v_kph < 30 ->
      clamped_around out org (interp v_kph [5; 15; 30] [1; 3; 5]) (steeringAngle cs))
     /\ (30 <= v_kph -> out = org)).

(** ** Further statements *)

(** Lines 199-201: both lane-line probabilities multiplied by [p]. *)
Definition attenuate (lp : LanePlanner) (p : Q) : LanePlanner :=
  {| l_poly := l_poly lp; r_poly := r_poly lp; d_poly := d_poly lp;
     l_prob := l_prob lp * p;
     r_prob := r_prob lp * p;
     l_lane_change_prob := l_lane_change_prob lp;
     r_lane_change_prob := r_lane_change_prob lp;
     lane_width := lane_width lp |}.

(** The collaborators [ext] with another solver in the place of theirs. *)
Definition with_solver (ext : Collaborators)
    (f : state_t -> LanePlanner -> Q -> Q -> log_t) : Collaborators :=
  {| VM_update_params := VM_update_params ext;
     LP_parse_model := LP_parse_model ext;
     LP_update_d_poly := LP_update_d_poly ext;
     libmpc_run_mpc := f;
     sec_since_boot := sec_since_boot ext |}.

(** The states in which a lane change is under way: the run timer runs
    (line 192) and a desire can be published. *)
Definition changing_lanes (s : LaneChangeState) : bool :=
  match s with
  | laneChangeStarting | laneChangeFinishing | laneChangeDone => true
  | off | preLaneChange => false
  end.

(** The successors a state has in one tick (lines 135-187). *)
Definition may_follow (s s' : LaneChangeState) : bool :=
  match s, s' with
  | _, off => true
  | off, preLaneChange => true
  | preLaneChange, (preLaneChange | laneChangeStarting) => true
  | laneChangeStarting, (laneChangeStarting | laneChangeFinishing) => true
  | laneChangeFinishing, (laneChangeFinishing | laneChangeDone) => true
  | laneChangeDone, laneChangeDone => true
  | _, _ => false
  end.

(** Lines 139-144 for the side [d]: the driver pushes the wheel towards
    [d]; the blindspot sensor on the side [d] is asserted. *)
Definition torque_towards (cs : CarState) (d : LaneChangeDirection) : Prop :=
  steeringPressed cs = true
  /\ ((0 < steeringTorque cs /\ d = left) \/ (steeringTorque cs < 0 /\ d = right)).

Definition blindspot_on (cs : CarState) (d : LaneChangeDirection) : Prop :=
  (leftBlindspot cs = true /\ d = left) \/ (rightBlindspot cs = true /\ d = right).

(** Every tick of the run from [self] through [ticks] completes and has a
    bad solution: the solution the tick really got, [solution_of]. *)
Fixpoint all_bad (self : PathPlanner) (ticks : list Tick) : Prop :=
  match ticks with
  | [] => True
  | t :: ticks' =>
      match step self t with
      | Ok (self', _) =>
          is_bad (solution_of self self' (tick_sm t) (tick_ext t)) = true
          /\ all_bad self' ticks'
      | Raise _ => False
      end
  end.

(** ** The disengaged steering path in binary64

    The statements above idealise floats as rationals.  Where a claim is
    about exact equality of computed angles the rounding of the doubles
    decides, so lines 106, 217 and 221-241 are given once more on Rocq's
    primitive binary64 floats, operation for operation. *)

Module Double.

Import PrimFloat.

(** [math.pi], and CPython's [math.radians] and [math.degrees]:
    multiplication by the constants [pi / 180.0] and [180.0 / pi]. *)
Definition pi : float := 0x1.921fb54442d18p+1%float.
Definition radians (x : float) : float := mul x (div pi 180%float).
Definition degrees (x : float) : float := mul x (div 180%float pi).

(** Modelled from the spec: common.numpy_fast.interp, as [interp] above. *)
Fixpoint interp_from (x x0 f0 : float) (xp fp : list float) : float :=
  match xp, fp with
  | x1 :: xp', f1 :: fp' =>
      if ltb x1 x then interp_from x x1 f1 xp' fp'
      else add (div (mul (sub x x0) (sub f1 f0)) (sub x1 x0)) f0
  | _, _ => f0
  end.

Definition interp (x : float) (xp fp : list float) : float :=
  match xp, fp with
  | x0 :: xp', f0 :: fp' => if ltb x0 x then interp_from x x0 f0 xp' fp' else f0
  | _, _ => 0%float
  end.

(** Lines 79-86. *)
Definition limit_ctrl (value limit offset : float) : float :=
  let p_limit := add offset limit in
  let m_limit := sub offset limit in
  if ltb p_limit value then p_limit
  else if ltb value m_limit then m_limit
  else value.

(** Lines 225-241. *)
Definition limit_authority (steeringPressed : bool)
    (steeringTorque angle_steers v_ego_kph org : float) : float :=
  if steeringPressed then
    let delta_steer := sub org angle_steers in
    let limit_steers :=
      interp steeringTorque [(-450)%float; 0%float; 450%float]
                            [5%float; 0%float; 5%float] in
    if ltb steeringTorque 0%float then
      if ltb 0%float delta_steer then limit_ctrl org limit_steers angle_steers
      else org
    else if ltb 0%float steeringTorque then
      if ltb delta_steer 0%float then limit_ctrl org limit_steers angle_steers
      else org
    else org
  else if ltb v_ego_kph 30%float then
    let limit_steers :=
      interp v_ego_kph [5%float; 15%float; 30%float] [1%float; 3%float; 5%float] in
    limit_ctrl org limit_steers angle_steers
  else org.




End Double.

(** * Properties *)

(** ** Comparisons *)

Lemma ltb_true_iff (a b : Q) : (a <? b) = true <-> a < b.
Proof.
  unfold ltb. rewrite negb_true_iff, <- not_true_iff_false, Qle_bool_iff.
  split; [apply Qnot_le_lt | apply Qlt_not_le].
Qed.

Lemma ltb_false_iff (a b : Q) : (a <? b) = false <-> b <= a.
Proof.
  unfold ltb. rewrite negb_false_iff. apply Qle_bool_iff.
Qed.

Lemma gtb_true_iff (a b : Q) : (a >? b) = true <-> b < a.
Proof. apply ltb_true_iff. Qed.

Lemma gtb_false_iff (a b : Q) : (a >? b) = false <-> a <= b.
Proof. apply ltb_false_iff. Qed.

Lemma ltb_reflect (a b : Q) : reflect (a < b) (a <? b).
Proof.
  destruct (a <? b) eqn:E; constructor.
  - now apply ltb_true_iff.
  - apply ltb_false_iff in E. now apply Qle_not_lt.
Qed.

Lemma max_spec (a b : Q) :
  (a < b /\ max a b = b) \/ (b <= a /\ max a b = a).
Proof.
  unfold max, gtb. destruct (ltb_reflect a b) as [H | H]; [left | right]; split; auto.
  now apply Qnot_lt_le.
Qed.

Lemma min_spec (a b : Q) :
  (b < a /\ min a b = b) \/ (a <= b /\ min a b = a).
Proof.
  unfold min. destruct (ltb_reflect b a) as [H | H]; [left | right]; split; auto.
  now apply Qnot_lt_le.
Qed.

Lemma div_ok (a b : Q) : ~ b == 0 -> div a b = Ok (a / b).
Proof.
  intros H. unfold div. destruct (Qeq_bool b 0) eqn:E; [|reflexivity].
  apply Qeq_bool_iff in E. contradiction.
Qed.

Lemma div_inv (a b q : Q) : div a b = Ok q -> ~ b == 0 /\ q = a / b.
Proof.
  unfold div. destruct (Qeq_bool b 0) eqn:E; [discriminate|].
  intros [= <-]. split; [|reflexivity].
  intros H. apply Qeq_bool_iff in H. congruence.
Qed.

Lemma pi_nonzero : ~ pi == 0.
Proof. unfold pi. lra. Qed.

(** Converting to radians and back is the identity in exact arithmetic. *)
Lemma degrees_radians (a : Q) : degrees (Fin (radians a)) = Fin (radians a * (180 / pi))
                                /\ radians a * (180 / pi) == a.
Proof.
  split; [reflexivity|]. unfold radians. field. apply pi_nonzero.
Qed.

(** ** The limiter *)

Section Limiter.

Variables value limit offset : Q.

Lemma limit_ctrl_finite :
  limit_ctrl (Fin value) (Fin limit) (Fin offset)
  = Fin (if value >? offset + limit then offset + limit
         else if value <? offset - limit then offset - limit
         else value).
Proof.
  unfold limit_ctrl. cbn [fadd fsub fgt flt].
  destruct (value >? offset + limit); [reflexivity|].
  destruct (value <? offset - limit); reflexivity.
Qed.

(** Inside the window the value is returned as it is, whatever the sign
    of [limit]. *)
Lemma limit_ctrl_inside :
  offset - limit <= value -> value <= offset + limit ->
  limit_ctrl (Fin value) (Fin limit) (Fin offset) = Fin value.
Proof.
  intros Hlo Hhi. rewrite limit_ctrl_finite.
  apply gtb_false_iff in Hhi. apply ltb_false_iff in Hlo.
  now rewrite Hhi, Hlo.
Qed.

(** C3, amended: for a non-negative [limit], [limit_ctrl] clamps [value]
    into [[offset - limit, offset + limit]]: the result lies in the
    interval and is [value] whenever [value] already lies in it. *)
Theorem limit_ctrl_clamps :
  0 <= limit -> clamps_into_window value limit offset.
Proof.
  intros Hl. unfold clamps_into_window. rewrite limit_ctrl_finite.
  eexists; split; [reflexivity|].
  destruct (ltb_reflect (offset + limit) value) as [Hgt | Hgt];
    unfold gtb; [apply ltb_true_iff in Hgt | apply Qnot_lt_le, ltb_false_iff in Hgt];
    rewrite Hgt.
  - apply ltb_true_iff in Hgt. split; [lra|]. intros [_ H]. lra.
  - apply ltb_false_iff in Hgt.
    destruct (ltb_reflect value (offset - limit)) as [Hlt | Hlt].
    + split; [lra|]. intros [H _]. lra.
    + split; [lra|]. reflexivity.
Qed.

End Limiter.

(** A NaN passes through the limiter: both comparisons are false. *)
Lemma limit_ctrl_nan (limit offset : pyfloat) : limit_ctrl NaN limit offset = NaN.
Proof. reflexivity. Qed.

Lemma limit_ctrl_clamps_witness : 0 <= 5 /\ clamps_into_window 10 5 0.
Proof.
  split; [lra | apply (limit_ctrl_clamps 10 5 0); lra].
Defined.

(** C3 as stated fails for a negative limit: [limit_ctrl(0, -1, 0)] is
    [-1], and the interval [[0 - (-1), 0 + (-1)]] is empty. *)
Lemma limit_ctrl_negative_limit :
  limit_ctrl (Fin 0) (Fin (-1)) (Fin 0) = Fin (-1)
  /\ ~ clamps_into_window 0 (-1) 0.
Proof.
  split; [reflexivity|].
  intros (r & Hr & [Hlo Hhi] & _). lra.
Qed.

(** ** The delay compensator *)

(** C9, amended: for a steer ratio other than zero the compensator sets
    [x] to [v * delay] and [psi] to
    [v * curvature_factor * radians(angle) / steer_ratio * delay] and
    leaves [y] and [delta] as they are. *)
Theorem calc_states_after_delay_frame (states : state_t)
    (v_ego steer_angle curvature_factor steer_ratio delay : Q) :
  ~ steer_ratio == 0 ->
  compensates_delay states v_ego steer_angle curvature_factor steer_ratio delay.
Proof.
  intros Hsr. unfold compensates_delay, calc_states_after_delay.
  rewrite (div_ok _ _ Hsr). cbn [bind].
  eexists; split; [reflexivity|]. cbn. repeat split.
Qed.

Lemma calc_states_after_delay_frame_witness :
  ~ 15 == 0
  /\ compensates_delay (cur_state Scenario.planner) 20 3 1 15 0.1.
Proof.
  split; [lra | apply calc_states_after_delay_frame; lra].
Defined.

(** C9 as stated fails for steer ratio zero: the division raises and no
    state is returned. *)
Lemma calc_states_after_delay_zero_ratio :
  calc_states_after_delay (cur_state Scenario.planner) 1 1 1 0 1
  = Raise ZeroDivisionError
  /\ ~ compensates_delay (cur_state Scenario.planner) 1 1 1 0 1.
Proof.
  split; [reflexivity|].
  intros (s' & H & _). vm_compute in H. discriminate.
Qed.

(** [math.radians] is multiplication by pi / 180. *)
Lemma radians_formula (a : Q) : radians a == pi * a / 180.
Proof. unfold radians. field. Qed.

(** ** Inversion of one tick *)

Ltac bind_inv H x :=
  match type of H with
  | bind ?m _ = Ok _ =>
      let E := fresh "E" x in
      destruct m as [x|] eqn:E; cbn [bind] in H; [|discriminate H]
  end.

(** What a completed tick does to the lane-change attributes. *)
Lemma update_lane_change self sm CP ext self' m :
  update self sm CP ext = Ok (self', m) ->
  let direction := latch_direction (carState sm) (lane_change_direction self) in
  let lp := LP_parse_model ext (LP self) in
  (if global_override self sm
   then lane_change_state self' = off
        /\ lane_change_direction self' = none
        /\ lane_change_ll_prob self' = lane_change_ll_prob self
        /\ lane_change_wait_timer self' = lane_change_wait_timer self
   else state_transitions self sm lp direction
          = (lane_change_state self', lane_change_ll_prob self',
             lane_change_wait_timer self')
        /\ lane_change_direction self' = direction)
  /\ lane_change_run_timer self'
     = match lane_change_state self' with
       | off | preLaneChange => 0
       | _ => lane_change_run_timer self + DT_MDL
       end
  /\ prev_one_blinker self' = one_blinker sm
  /\ lane_change_enabled self' = lane_change_enabled self
  /\ lane_change_auto_delay self' = lane_change_auto_delay self
  /\ pathPlan_laneChangeState m = lane_change_state self'
  /\ pathPlan_laneChangeDirection m = lane_change_direction self'
  /\ pathPlan_desire m
     = DESIRES (lane_change_direction self') (lane_change_state self').
Proof.
  intros H direction lp. unfold update in H.
  fold direction lp in H.
  destruct (global_override self sm).
  - bind_inv H cur. bind_inv H des. destruct des as [dd rd]. bind_inv H d'.
    injection H as <- <-. cbn. repeat split.
  - destruct (state_transitions self sm lp direction) as [[s p] w].
    bind_inv H cur. bind_inv H des. destruct des as [dd rd]. bind_inv H d'.
    injection H as <- <-. cbn. repeat split.
Qed.

(** What a completed tick does with the solver's answer: the angle before
    the limiter comes from [delta_desired], the message carries the
    limited angle, [cur_state.delta] keeps [delta_desired] unless the
    horizon has a NaN. *)
Lemma update_steering self sm CP ext self' m :
  update self sm CP ext = Ok (self', m) ->
  let cs := carState sm in
  let angle_offset := angleOffset (liveParameters sm) in
  let VM := VM_of sm ext in
  let measured := measured_delta sm ext in
  let sol := solution_of self self' sm ext in
  ~ sR VM == 0
  /\ exists delta_desired rate_desired : pyfloat,
        (if controlsState_active sm
         then index (log_delta sol) 1 = Ok delta_desired
              /\ exists rate0, index (log_rate sol) 0 = Ok rate0
                               /\ rate_desired = degrees (rate0 *! Fin (sR VM))
         else delta_desired = Fin measured /\ rate_desired = Fin 0)
        /\ pathPlan_angleSteers m
           = limit_authority cs (vEgo cs * 3.61) (command_of delta_desired sm ext)
        /\ angle_steers_des_mpc self' = pathPlan_angleSteers m
        /\ pathPlan_rateSteers m = rate_desired
        /\ delta (cur_state self')
           = (if mpc_nans sol then Fin measured else delta_desired)
        /\ solution_invalid_cnt self'
           = (if is_bad sol then solution_invalid_cnt self + 1 else 0)%Z
        /\ pathPlan_mpcSolutionValid m = (solution_invalid_cnt self' <? 3)%Z
        /\ pathPlan_angleOffset m = angle_offset.
Proof.
  intros H cs angle_offset VM measured.
  unfold update in H. fold cs angle_offset in H. fold (VM_of sm ext) in H. fold VM in H.
  destruct (global_override self sm);
    [|destruct (state_transitions self sm (LP_parse_model ext (LP self))
                 (latch_direction cs (lane_change_direction self))) as [[s p] w]].
  all: bind_inv H cur.
  all: unfold calc_states_after_delay in Ecur; bind_inv Ecur q.
  all: apply div_inv in Eq; destruct Eq as [Hsr _].
  all: injection Ecur as <-.
  all: match type of H with
       | context [libmpc_run_mpc ?e ?st ?lp ?k ?v] =>
           set (sol := libmpc_run_mpc e st lp k v) in *
       end.
  all: bind_inv H des; destruct des as [dd rd]; bind_inv H d'.
  all: injection H as <- <-.
  all: match goal with
       | |- let _ := solution_of ?a ?b ?c ?d in _ =>
           change (solution_of a b c d) with sol
       end.
  all: clearbody sol; intros sol'; subst sol'.
  all: split; [exact Hsr|].
  all: exists dd, rd; unfold mpc_nans, is_bad, command_of, mpc_nans; cbn.
  all: split;
    [ destruct (controlsState_active sm);
      [ bind_inv Edes d1; bind_inv Edes r0; injection Edes as <- <-;
        split; [reflexivity | eexists; split; reflexivity]
      | rewrite (div_ok _ _ Hsr) in Edes; cbn in Edes; injection Edes as <- <-;
        split; reflexivity ]
    | ].
  all: repeat split.
  all: destruct (existsb isnan (log_delta sol));
       [ rewrite (div_ok _ _ Hsr) in Ed'; cbn in Ed'; now injection Ed' as <-
       | now injection Ed' as <- ].
Qed.

(** ** The lane-change state machine *)

Lemma global_override_iff self sm :
  global_override self sm = true <-> override_condition self sm.
Proof.
  unfold global_override, override_condition, one_blinker.
  rewrite !orb_true_iff, !negb_true_iff, gtb_true_iff. tauto.
Qed.

Lemma global_override_false self sm :
  global_override self sm = false ->
  controlsState_active sm = true
  /\ lane_change_run_timer self <= LANE_CHANGE_TIME_MAX
  /\ one_blinker sm = true
  /\ lane_change_enabled self = true.
Proof.
  unfold global_override, one_blinker.
  rewrite !orb_false_iff, !negb_false_iff, gtb_false_iff. tauto.
Qed.

(** With exactly one blinker on, the latch takes that blinker's side. *)
Lemma latch_direction_one_blinker sm d :
  one_blinker sm = true ->
  latch_direction (carState sm) d
  = (if leftBlinker (carState sm) then left else right)
  /\ latch_direction (carState sm) d <> none.
Proof.
  unfold one_blinker, latch_direction.
  destruct (leftBlinker (carState sm)), (rightBlinker (carState sm));
    cbn; intros H; try discriminate H; split; congruence.
Qed.

(** C1, amended: after a tick that ends in [Off] the run timer is zero and
    the published desire is [none]; the direction is [None] exactly when
    the global override fired on that tick, and otherwise it is the side
    of the one blinker that is on. *)
Theorem off_run_timer_zero_direction_by_override self sm CP ext self' m :
  update self sm CP ext = Ok (self', m) ->
  lane_change_state self' = off ->
  lane_change_run_timer self' = 0
  /\ (lane_change_direction self' = none <-> override_condition self sm)
  /\ (~ override_condition self sm ->
      lane_change_direction self'
      = if leftBlinker (carState sm) then left else right)
  /\ pathPlan_laneChangeState m = off
  /\ pathPlan_laneChangeDirection m = lane_change_direction self'
  /\ pathPlan_desire m = Desire_none.
Proof.
  intros H Hoff.
  destruct (update_lane_change _ _ _ _ _ _ H)
    as (Hlc & Hrt & _ & _ & _ & Hms & Hmd & Hdes).
  rewrite Hoff in Hrt, Hms, Hdes.
  rewrite <- global_override_iff.
  split; [exact Hrt|].
  destruct (global_override self sm) eqn:Hov.
  - destruct Hlc as (_ & Hd & _). rewrite Hd in *.
    repeat split; auto. intros Hn. now contradiction Hn.
  - destruct Hlc as (_ & Hd).
    apply global_override_false in Hov. destruct Hov as (_ & _ & Hob & _).
    destruct (latch_direction_one_blinker sm (lane_change_direction self) Hob)
      as [Hside Hne].
    rewrite <- Hd in Hside, Hne.
    repeat split; auto; try congruence.
    rewrite Hdes. now destruct (lane_change_direction self').
Qed.

Lemma off_run_timer_zero_direction_by_override_witness :
  exists self' m,
    step Scenario.planner
      (Scenario.tick (Scenario.car 20 0 0 false false false) true
         (Scenario.horizon (Fin 0) 0)) = Ok (self', m)
    /\ lane_change_run_timer self' = 0
    /\ lane_change_direction self' = none
    /\ pathPlan_desire m = Desire_none.
Proof.
  eexists; eexists.
  assert (H : step Scenario.planner
      (Scenario.tick (Scenario.car 20 0 0 false false false) true
         (Scenario.horizon (Fin 0) 0)) = Ok _) by (vm_compute; reflexivity).
  split; [exact H|].
  destruct (off_run_timer_zero_direction_by_override _ _ _ _ _ _ H eq_refl)
    as (Hrt & Hd & _ & _ & _ & Hdes).
  split; [exact Hrt|]. split; [|exact Hdes].
  apply Hd. right; right; left. reflexivity.
Defined.

(** C1 as stated fails on the first tick of a fresh planner with the left
    blinker on below the lane-change speed: no override, no transition,
    and the message carries [off] with direction [left]. *)
Lemma off_with_direction_left :
  exists self' m,
    step Scenario.planner
      (Scenario.tick (Scenario.car 10 0 0 false true false) true
         (Scenario.horizon (Fin 0) 0)) = Ok (self', m)
    /\ ~ off_is_idle self'
    /\ pathPlan_laneChangeState m = off
    /\ pathPlan_laneChangeDirection m = left.
Proof.
  eexists; eexists. split; [vm_compute; reflexivity|].
  split; [|split; reflexivity].
  intros H. destruct (H eq_refl) as [Hd _]. discriminate Hd.
Qed.

(** C8: when one of the four override conditions holds, the tick ends in
    [Off] with direction [None] whatever the state was, and nothing a
    per-state rule would do happens: the lane-line probability and the
    wait timer keep their values. *)
Theorem global_override_forces_off self sm CP ext self' m :
  update self sm CP ext = Ok (self', m) ->
  override_condition self sm ->
  lane_change_state self' = off
  /\ lane_change_direction self' = none
  /\ lane_change_ll_prob self' = lane_change_ll_prob self
  /\ lane_change_wait_timer self' = lane_change_wait_timer self
  /\ lane_change_run_timer self' = 0
  /\ pathPlan_laneChangeState m = off
  /\ pathPlan_laneChangeDirection m = none
  /\ pathPlan_desire m = Desire_none.
Proof.
  intros H Hov. apply global_override_iff in Hov.
  destruct (update_lane_change _ _ _ _ _ _ H)
    as (Hlc & Hrt & _ & _ & _ & Hms & Hmd & Hdes).
  rewrite Hov in Hlc. destruct Hlc as (Hs & Hd & Hp & Hw).
  rewrite Hs, Hd in *. repeat split; assumption.
Qed.

(** ** Interpolation tables *)

Lemma max_Qmax (a b : Q) : max a b == Qmax b a.
Proof.
  destruct (max_spec a b) as [[H ->] | [H ->]];
    destruct (Q.max_spec b a) as [[H' E] | [H' E]]; rewrite E; lra.
Qed.

Lemma min_Qmin (a b : Q) : min a b == Qmin b a.
Proof.
  destruct (min_spec a b) as [[H ->] | [H ->]];
    destruct (Q.min_spec b a) as [[H' E] | [H' E]]; rewrite E; lra.
Qed.

Ltac gtb_cases :=
  repeat match goal with
  | |- context [?a >? ?b] =>
      let H := fresh "H" in
      destruct (a >? b) eqn:H;
      [apply gtb_true_iff in H | apply gtb_false_iff in H]
  end.

(** Division by a constant, made a multiplication for [lra]. *)
Ltac const_div :=
  unfold Qdiv;
  repeat match goal with
  | |- context [/ ?c] =>
      let c' := eval vm_compute in (/ c) in change (/ c) with c'
  end.

(** The fade-out rate of line 170. *)
Lemma lane_time_bounds (v : Q) :
  0.5 <= interp v [40; 60; 70; 80] [0.5; 1; 1.5; 2] <= 2.
Proof.
  unfold interp, interp_from. gtb_cases; const_div; split; lra.
Qed.

(** The low-speed window of line 240. *)
Lemma low_speed_limit_bounds (v : Q) :
  1 <= interp v [5; 15; 30] [1; 3; 5] <= 5.
Proof.
  unfold interp, interp_from. gtb_cases; const_div; split; lra.
Qed.

(** The driver-torque window of line 229. *)
Lemma torque_limit_bounds (t : Q) :
  0 <= interp t [-450; 0; 450] [5; 0; 5] <= 5.
Proof.
  unfold interp, interp_from. gtb_cases; const_div; split; lra.
Qed.

(** ** The lane-line probability *)

Lemma state_transitions_ll_prob self sm lp d s p w :
  state_transitions self sm lp d = (s, p, w) ->
  global_override self sm = false ->
  p == ll_prob_rule self sm
  /\ (in_unit_interval (lane_change_ll_prob self) -> in_unit_interval p).
Proof.
  unfold state_transitions, ll_prob_rule, in_unit_interval, one_blinker.
  pose proof (lane_time_bounds (vEgo (carState sm) * 3.61)) as [Hr _].
  set (lane_time := interp (vEgo (carState sm) * 3.61) _ _) in *.
  clearbody lane_time.
  intros H ->.
  destruct (lane_change_state self); cbn [LaneChangeState_eqb andb] in H.
  - destruct (xorb _ _ && negb (prev_one_blinker self) && negb _);
      injection H as <- <- <-; split; (reflexivity || (intros; lra)).
  - match type of H with (if ?c then _ else _) = _ => destruct c end;
      [|match type of H with (if ?c then _ else _) = _ => destruct c end];
      injection H as <- <- <-; split; (reflexivity || auto).
  - match type of H with (if ?c then _ else _) = _ => destruct c end;
      injection H as <- <- <-.
    all: split; [apply max_Qmax|].
    all: intros [Hlo Hhi]; unfold DT_MDL;
      destruct (max_spec (lane_change_ll_prob self - lane_time * 0.05) 0)
        as [[Hm ->] | [Hm ->]];
      lra.
  - match type of H with (if ?c then _ else _) = _ => destruct c end;
      injection H as <- <- <-.
    all: split; [apply min_Qmin|].
    all: intros [Hlo Hhi]; unfold DT_MDL;
      destruct (min_spec (lane_change_ll_prob self + 0.05) 1)
        as [[Hm ->] | [Hm ->]];
      lra.
  - match type of H with (if ?c then _ else _) = _ => destruct c end;
      injection H as <- <- <-; split; (reflexivity || auto).
Qed.

(** One tick: the new probability is the one section 4.3 prescribes, and
    the unit interval is kept. *)
Lemma update_ll_prob self sm CP ext self' m :
  update self sm CP ext = Ok (self', m) ->
  lane_change_ll_prob self' == ll_prob_rule self sm
  /\ (in_unit_interval (lane_change_ll_prob self) ->
      in_unit_interval (lane_change_ll_prob self')).
Proof.
  intros H. destruct (update_lane_change _ _ _ _ _ _ H) as (Hlc & _).
  destruct (global_override self sm) eqn:Hov.
  - destruct Hlc as (_ & _ & Hp & _). rewrite Hp.
    unfold ll_prob_rule. rewrite Hov. split; [reflexivity | auto].
  - destruct Hlc as (Hst & _).
    apply (state_transitions_ll_prob _ _ _ _ _ _ _ Hst Hov).
Qed.

Lemma run_cons_inv self t ticks self' msgs :
  run self (t :: ticks) = Ok (self', msgs) ->
  exists s1 m1 ms,
    step self t = Ok (s1, m1) /\ run s1 ticks = Ok (self', ms) /\ msgs = m1 :: ms.
Proof.
  cbn [run]. intros H.
  destruct (step self t) as [[s1 m1]|] eqn:E1; cbn [bind fst snd] in H; [|discriminate].
  destruct (run s1 ticks) as [[s2 ms]|] eqn:E2; cbn [bind fst snd] in H; [|discriminate].
  injection H as <- <-. now exists s1, m1, ms.
Qed.

Lemma run_ll_prob ticks : forall self self' msgs,
  run self ticks = Ok (self', msgs) ->
  in_unit_interval (lane_change_ll_prob self) ->
  in_unit_interval (lane_change_ll_prob self').
Proof.
  induction ticks as [|t ticks IH]; intros self self' msgs H Hin.
  - cbn in H. injection H as <- <-. exact Hin.
  - apply run_cons_inv in H. destruct H as (s1 & m1 & ms & Hs & Hr & _).
    apply (IH _ _ _ Hr). now apply (update_ll_prob _ _ _ _ _ _ Hs).
Qed.

(** C7: the planner is built with [lane_change_ll_prob = 1]; after any run
    of ticks from construction it lies in [[0, 1]], it still does after
    one more tick, and that tick changes it as section 4.3 says: floor 0
    in [Starting], ceiling 1 in [Finishing], reset to 1 on entering
    [PreLaneChange], unchanged otherwise. *)
Theorem ll_prob_in_unit_interval CP params LP0 ticks self msgs t self' m :
  run (init CP params LP0) ticks = Ok (self, msgs) ->
  step self t = Ok (self', m) ->
  lane_change_ll_prob (init CP params LP0) = 1
  /\ in_unit_interval (lane_change_ll_prob self)
  /\ in_unit_interval (lane_change_ll_prob self')
  /\ lane_change_ll_prob self' == ll_prob_rule self (tick_sm t).
Proof.
  intros Hrun Hstep.
  assert (Hin : in_unit_interval (lane_change_ll_prob self)).
  { apply (run_ll_prob _ _ _ _ Hrun). cbn. unfold in_unit_interval. lra. }
  destruct (update_ll_prob _ _ _ _ _ _ Hstep) as [Hrule Hkeep].
  split; [reflexivity|]. split; [exact Hin|]. split; [exact (Hkeep Hin) | exact Hrule].
Qed.

Lemma ll_prob_in_unit_interval_witness :
  exists self msgs self' m,
    run Scenario.planner [Scenario.blinker_fast; Scenario.blinker_fast_torque]
      = Ok (self, msgs)
    /\ step self Scenario.blinker_fast_torque = Ok (self', m)
    /\ lane_change_state self = laneChangeStarting
    /\ in_unit_interval (lane_change_ll_prob self')
    /\ lane_change_ll_prob self'
       == ll_prob_rule self (tick_sm Scenario.blinker_fast_torque).
Proof.
  let r := eval vm_compute in
    (run Scenario.planner [Scenario.blinker_fast; Scenario.blinker_fast_torque]) in
  match r with
  | Ok (?s, ?ms) =>
      assert (Hrun : run Scenario.planner
                       [Scenario.blinker_fast; Scenario.blinker_fast_torque]
                     = Ok (s, ms)) by (vm_compute; reflexivity);
      let r' := eval vm_compute in (step s Scenario.blinker_fast_torque) in
      match r' with
      | Ok (?s', ?m) =>
          assert (Hstep : step s Scenario.blinker_fast_torque = Ok (s', m))
            by (vm_compute; reflexivity);
          exists s, ms, s', m
      end
  end.
  split; [exact Hrun|]. split; [exact Hstep|]. split; [reflexivity|].
  destruct (ll_prob_in_unit_interval _ _ _ _ _ _ _ _ _ Hrun Hstep)
    as (_ & _ & Hin & Hrule).
  split; assumption.
Defined.

Lemma global_override_forces_off_witness :
  exists self msgs self' m,
    run Scenario.planner [Scenario.blinker_fast; Scenario.blinker_fast_torque]
      = Ok (self, msgs)
    /\ step self (Scenario.cruise Scenario.good) = Ok (self', m)
    /\ lane_change_state self = laneChangeStarting
    /\ override_condition self (tick_sm (Scenario.cruise Scenario.good))
    /\ lane_change_state self' = off
    /\ lane_change_direction self' = none.
Proof.
  let r := eval vm_compute in
    (run Scenario.planner [Scenario.blinker_fast; Scenario.blinker_fast_torque]) in
  match r with
  | Ok (?s, ?ms) =>
      assert (Hrun : run Scenario.planner
                       [Scenario.blinker_fast; Scenario.blinker_fast_torque]
                     = Ok (s, ms)) by (vm_compute; reflexivity);
      let r' := eval vm_compute in (step s (Scenario.cruise Scenario.good)) in
      match r' with
      | Ok (?s', ?m) =>
          assert (Hstep : step s (Scenario.cruise Scenario.good) = Ok (s', m))
            by (vm_compute; reflexivity);
          exists s, ms, s', m
      end
  end.
  split; [exact Hrun|]. split; [exact Hstep|]. split; [reflexivity|].
  match type of Hstep with
  | step ?s ?t = _ =>
      assert (Hov : override_condition s (tick_sm t))
        by (right; right; left; reflexivity)
  end.
  split; [exact Hov|].
  destruct (global_override_forces_off _ _ _ _ _ _ Hstep Hov) as (Hs & Hd & _).
  split; assumption.
Defined.

(** ** The blinker edge *)

(** Leaving [Off] takes a rising blinker edge above the minimum speed, and
    [Off] is only ever left for [PreLaneChange]. *)
Lemma off_left_on_rising_edge self sm CP ext self' m :
  update self sm CP ext = Ok (self', m) ->
  lane_change_state self = off ->
  lane_change_state self' <> off ->
  lane_change_state self' = preLaneChange
  /\ one_blinker sm = true
  /\ prev_one_blinker self = false
  /\ LANE_CHANGE_SPEED_MIN <= vEgo (carState sm).
Proof.
  intros H Hoff Hne.
  destruct (update_lane_change _ _ _ _ _ _ H) as (Hlc & _).
  destruct (global_override self sm).
  - destruct Hlc as (Hs & _). contradiction.
  - destruct Hlc as (Hst & _). unfold state_transitions in Hst.
    rewrite Hoff in Hst. cbn [LaneChangeState_eqb andb] in Hst. fold (one_blinker sm) in Hst.
    destruct (one_blinker sm); cbn [andb] in Hst;
      [|injection Hst as Hs _ _; congruence].
    destruct (prev_one_blinker self); cbn [andb negb] in Hst;
      [injection Hst as Hs _ _; congruence|].
    destruct (vEgo (carState sm) <? LANE_CHANGE_SPEED_MIN) eqn:Hv; cbn [negb] in Hst;
      [injection Hst as Hs _ _; congruence|].
    injection Hst as Hs _ _. apply ltb_false_iff in Hv. auto.
Qed.

(** Line 194: the latch takes this tick's [one_blinker]. *)
Lemma prev_one_blinker_latched self sm CP ext self' m :
  update self sm CP ext = Ok (self', m) ->
  prev_one_blinker self' = one_blinker sm.
Proof.
  intros H. now destruct (update_lane_change _ _ _ _ _ _ H) as (_ & _ & Hp & _).
Qed.

(** From [Off] with the latch set, no run of ticks with the blinker on
    leaves [Off]. *)
Lemma off_with_latch_stays_off ticks : forall self self' msgs,
  lane_change_state self = off ->
  prev_one_blinker self = true ->
  Forall (fun t => one_blinker (tick_sm t) = true) ticks ->
  run self ticks = Ok (self', msgs) ->
  lane_change_state self' = off
  /\ prev_one_blinker self' = true
  /\ Forall (fun m => pathPlan_laneChangeState m = off) msgs.
Proof.
  induction ticks as [|t ticks IH]; intros self self' msgs Hoff Hprev Hheld Hrun.
  - cbn in Hrun. injection Hrun as <- <-. auto.
  - apply run_cons_inv in Hrun. destruct Hrun as (s1 & m1 & ms & Hs & Hr & ->).
    inversion Hheld as [|? ? Hb Hheld']; subst.
    assert (Hoff1 : lane_change_state s1 = off).
    { destruct (LaneChangeState_eqb (lane_change_state s1) off) eqn:E.
      - now destruct (lane_change_state s1).
      - assert (Hne : lane_change_state s1 <> off) by (intros Heq; rewrite Heq in E; discriminate).
        destruct (off_left_on_rising_edge _ _ _ _ _ _ Hs Hoff Hne) as (_ & _ & Hp & _).
        congruence. }
    assert (Hprev1 : prev_one_blinker s1 = true).
    { rewrite (prev_one_blinker_latched _ _ _ _ _ _ Hs). exact Hb. }
    destruct (IH _ _ _ Hoff1 Hprev1 Hheld' Hr) as (Hfin & Hpf & Hall).
    repeat split; auto. constructor; [|exact Hall].
    destruct (update_lane_change _ _ _ _ _ _ Hs) as (_ & _ & _ & _ & _ & Hms & _).
    congruence.
Qed.

(** C10: leaving [Off] takes a rising edge and the latch is set to
    [one_blinker] at the end of every tick (the two lemmas above); so once
    a tick with the blinker on has ended in [Off], no later tick with the
    blinker still on leaves [Off], whatever the speed: the planner stays
    in [Off] and every message of the run carries [off]. *)
Theorem held_blinker_stays_off self t s1 m1 ticks self' msgs :
  step self t = Ok (s1, m1) ->
  one_blinker (tick_sm t) = true ->
  lane_change_state s1 = off ->
  Forall (fun t' => one_blinker (tick_sm t') = true) ticks ->
  run s1 ticks = Ok (self', msgs) ->
  lane_change_state self' = off
  /\ Forall (fun m => pathPlan_laneChangeState m = off) msgs.
Proof.
  intros Hstep Hb Hoff Hheld Hrun.
  assert (Hprev : prev_one_blinker s1 = true).
  { rewrite (prev_one_blinker_latched _ _ _ _ _ _ Hstep). exact Hb. }
  destruct (off_with_latch_stays_off _ _ _ _ Hoff Hprev Hheld Hrun) as (H1 & _ & H2).
  split; assumption.
Qed.

Lemma held_blinker_stays_off_witness :
  exists s1 m1 self' msgs,
    step Scenario.planner Scenario.blinker_slow = Ok (s1, m1)
    /\ run s1 [Scenario.blinker_slow; Scenario.blinker_fast;
               Scenario.blinker_fast_torque] = Ok (self', msgs)
    /\ lane_change_state self' = off
    /\ Forall (fun m => pathPlan_laneChangeState m = off) msgs.
Proof.
  let r := eval vm_compute in (step Scenario.planner Scenario.blinker_slow) in
  match r with
  | Ok (?s, ?m) =>
      assert (Hstep : step Scenario.planner Scenario.blinker_slow = Ok (s, m))
        by (vm_compute; reflexivity);
      let r' := eval vm_compute in
        (run s [Scenario.blinker_slow; Scenario.blinker_fast;
                Scenario.blinker_fast_torque]) in
      match r' with
      | Ok (?s', ?ms') =>
          assert (Hrun : run s [Scenario.blinker_slow; Scenario.blinker_fast;
                                Scenario.blinker_fast_torque] = Ok (s', ms'))
            by (vm_compute; reflexivity);
          exists s, m, s', ms'
      end
  end.
  split; [exact Hstep|]. split; [exact Hrun|].
  match type of Hrun with
  | run ?s ?ts = _ =>
      assert (Hheld : Forall (fun t => one_blinker (tick_sm t) = true) ts)
        by (repeat constructor);
      assert (Hoff : lane_change_state s = off) by reflexivity
  end.
  exact (held_blinker_stays_off _ _ _ _ _ _ _ Hstep eq_refl Hoff Hheld Hrun).
Defined.

(** ** The steering command *)

Lemma limit_ctrl_in_window (v L O : Q) :
  0 <= L ->
  exists r : Q, limit_ctrl (Fin v) (Fin L) (Fin O) = Fin r
                /\ O - L <= r /\ r <= O + L.
Proof.
  intros HL. rewrite limit_ctrl_finite. eexists; split; [reflexivity|].
  destruct (v >? O + L) eqn:Hgt;
    [apply gtb_true_iff in Hgt | apply gtb_false_iff in Hgt]; [lra|].
  destruct (v <? O - L) eqn:Hlt;
    [apply ltb_true_iff in Hlt | apply ltb_false_iff in Hlt]; lra.
Qed.

Lemma clamped_around_limit_ctrl (org : pyfloat) (limit a : Q) :
  0 <= limit ->
  clamped_around (limit_ctrl org (Fin limit) (Fin a)) org limit a.
Proof.
  intros HL. split; [reflexivity|].
  destruct org as [o|]; [|reflexivity].
  rewrite limit_ctrl_finite. repeat split.
  - intros Hup. apply gtb_true_iff in Hup. now rewrite Hup.
  - intros Hlow.
    assert (Hup : (o >? a + limit) = false) by (apply gtb_false_iff; lra).
    apply ltb_true_iff in Hlow. now rewrite Hup, Hlow.
  - intros [Hlow Hup].
    apply gtb_false_iff in Hup. apply ltb_false_iff in Hlow. now rewrite Hup, Hlow.
Qed.

(** Lines 225-241 follow the two regimes of section 4.6. *)
Lemma limit_authority_regimes (cs : CarState) (v_kph : Q) (org : pyfloat) :
  authority_regimes cs v_kph org (limit_authority cs v_kph org).
Proof.
  unfold authority_regimes, limit_authority, torque_opposes.
  pose proof (torque_limit_bounds (steeringTorque cs)) as [Ht _].
  pose proof (low_speed_limit_bounds v_kph) as [Hv _].
  set (lt := interp (steeringTorque cs) _ _) in *. clearbody lt.
  set (lv := interp v_kph _ _) in *. clearbody lv.
  split; intros Hp; rewrite Hp.
  - destruct (steeringTorque cs <? 0) eqn:Hneg;
      [apply ltb_true_iff in Hneg | apply ltb_false_iff in Hneg].
    + destruct (org -! Fin (steeringAngle cs) >! Fin 0) eqn:Hds.
      * split; [intros _; now apply clamped_around_limit_ctrl|].
        intros Hn. contradiction Hn. left. split; auto.
      * split; [|reflexivity].
        intros [[_ H] | [H _]]; [discriminate H | lra].
    + destruct (steeringTorque cs >? 0) eqn:Hpos;
        [apply gtb_true_iff in Hpos | apply gtb_false_iff in Hpos].
      * destruct (org -! Fin (steeringAngle cs) <! Fin 0) eqn:Hds.
        -- split; [intros _; now apply clamped_around_limit_ctrl|].
           intros Hn. contradiction Hn. right. split; auto.
        -- split; [|reflexivity].
           intros [[H _] | [_ H]]; [lra | discriminate H].
      * split; [|reflexivity]. intros [[H _] | [H _]]; lra.
  - destruct (v_kph <? 30) eqn:Hlow;
      [apply ltb_true_iff in Hlow | apply ltb_false_iff in Hlow].
    + split; [intros _; apply clamped_around_limit_ctrl; lra | intros; lra].
    + split; [intros; lra | reflexivity].
Qed.


Lemma index_no_nan (l : list pyfloat) (i : nat) (d : pyfloat) :
  existsb isnan l = false -> index l i = Ok d -> exists q, d = Fin q.
Proof.
  unfold index. intros Hn H.
  destruct (nth_error l i) as [a|] eqn:E; [|discriminate].
  injection H as <-. apply nth_error_In in E.
  destruct a as [q|]; [now exists q|].
  assert (Ht : existsb isnan l = true) by (apply existsb_exists; now exists NaN).
  congruence.
Qed.

(** The solver's answer of a tick is an answer of that tick's solver. *)
Lemma solution_of_solved_by self self' sm ext :
  solved_by ext (solution_of self self' sm ext).
Proof. unfold solved_by, solution_of. eauto. Qed.

(** A tick completes when the steer ratio the vehicle model exposes is not
    zero and, on an engaged tick, the horizons are long enough to index. *)
Lemma update_completes self sm CP ext :
  ~ sR (VM_of sm ext) == 0 ->
  (controlsState_active sm = true ->
   forall sol, solved_by ext sol ->
     (2 <= length (log_delta sol))%nat /\ (1 <= length (log_rate sol))%nat) ->
  exists self' m, update self sm CP ext = Ok (self', m).
Proof.
  intros Hsr Hlen. unfold update. fold (VM_of sm ext).
  destruct (if global_override self sm then _ else _) as [[[s d] p] w].
  unfold calc_states_after_delay. rewrite (div_ok _ _ Hsr). cbn [bind].
  match goal with
  | |- context [libmpc_run_mpc ext ?st ?lp ?k ?v] =>
      assert (Hsol : solved_by ext (libmpc_run_mpc ext st lp k v))
        by (now exists st, lp, k, v);
      set (sol := libmpc_run_mpc ext st lp k v) in *; clearbody sol
  end.
  rewrite (div_ok _ _ Hsr).
  destruct (controlsState_active sm).
  - destruct (Hlen eq_refl sol Hsol) as [Hd Hr].
    unfold index.
    destruct (log_delta sol) as [|d0 [|d1 ds]]; cbn in Hd; try lia.
    destruct (log_rate sol) as [|r0 rs]; cbn in Hr; try lia.
    cbn [nth_error bind]. destruct (existsb _ _); cbn [bind]; eauto.
  - cbn [bind]. destruct (existsb _ _); cbn [bind]; eauto.
Qed.

(** C6: the published angle follows the two regimes of the authority
    limiter, applied to the pre-limit angle
    [org = degrees(delta_desired * sr) + angle_offset].  With the wheel
    pressed the angle is clamped around [angle_steers] with the torque
    window when the torque opposes the planner, and is [org] otherwise;
    with the wheel free it is clamped with the speed window below 30 km/h
    and is [org] from 30 km/h on.  Clamped means: the upper edge of the
    window for an [org] above it, the lower edge for an [org] below it,
    [org] itself inside the window. *)
Theorem authority_limiter_regimes self sm CP ext self' m :
  update self sm CP ext = Ok (self', m) ->
  exists delta_desired : pyfloat,
    (if controlsState_active sm
     then index (log_delta (solution_of self self' sm ext)) 1 = Ok delta_desired
     else delta_desired = Fin (measured_delta sm ext))
    /\ authority_regimes (carState sm) (vEgo (carState sm) * 3.61)
         (command_of delta_desired sm ext) (pathPlan_angleSteers m).
Proof.
  intros H.
  destruct (update_steering _ _ _ _ _ _ H) as (_ & dd & rd & Hsrc & Hang & _).
  exists dd. split.
  - destruct (controlsState_active sm); tauto.
  - rewrite Hang. apply limit_authority_regimes.
Qed.

(** C5: the counter of bad solutions goes up by one when the cost exceeds
    20000 or the horizon has a NaN and back to zero otherwise, and the
    message says the solution is valid exactly when the new count is
    below three. *)
Theorem solution_invalid_cnt_rule self sm CP ext self' m :
  update self sm CP ext = Ok (self', m) ->
  let sol := solution_of self self' sm ext in
  solution_invalid_cnt self'
  = (if (log_cost sol >! Fin 20000) || existsb isnan (log_delta sol)
     then solution_invalid_cnt self + 1 else 0)%Z
  /\ pathPlan_mpcSolutionValid m = (solution_invalid_cnt self' <? 3)%Z
  /\ (pathPlan_mpcSolutionValid m = true <-> (solution_invalid_cnt self' < 3)%Z).
Proof.
  intros H sol.
  destruct (update_steering _ _ _ _ _ _ H)
    as (_ & dd & rd & _ & _ & _ & _ & _ & Hcnt & Hvalid & _).
  fold sol in Hcnt. split; [exact Hcnt|]. split; [exact Hvalid|].
  rewrite Hvalid. apply Z.ltb_lt.
Qed.

(** X16: over a run of ticks whose solutions are all bad the count grows
    by the number of ticks; the message of tick [n] (from zero) is valid
    exactly when the count before the run plus [n + 1] is below three, so
    from a zero count the third message is the first invalid one. *)
Lemma consecutive_bad_solutions ticks : forall self self' msgs,
  all_bad self ticks ->
  run self ticks = Ok (self', msgs) ->
  solution_invalid_cnt self'
  = (solution_invalid_cnt self + Z.of_nat (length ticks))%Z
  /\ forall n m, nth_error msgs n = Some m ->
       pathPlan_mpcSolutionValid m
       = (solution_invalid_cnt self + Z.of_nat n + 1 <? 3)%Z.
Proof.
  induction ticks as [|t ticks IH]; intros self self' msgs Hbad Hrun.
  - cbn in Hrun. injection Hrun as <- <-. split; [cbn; lia|].
    intros [|n] m Hn; discriminate Hn.
  - apply run_cons_inv in Hrun. destruct Hrun as (s1 & m1 & ms & Hs & Hr & ->).
    cbn [all_bad] in Hbad. rewrite Hs in Hbad. destruct Hbad as [Hb Hbad'].
    destruct (update_steering _ _ _ _ _ _ Hs)
      as (_ & dd & rd & _ & _ & _ & _ & _ & Hcnt & Hvalid & _).
    rewrite Hb in Hcnt.
    destruct (IH _ _ _ Hbad' Hr) as [Hfin Hmsgs].
    split; [rewrite Hfin, Hcnt; cbn [length]; lia|].
    intros [|n] m Hn; cbn in Hn.
    + injection Hn as <-. rewrite Hvalid, Hcnt. f_equal. lia.
    + rewrite (Hmsgs _ _ Hn), Hcnt. f_equal. lia.
Qed.

(** A good solution brings the count to zero and the flag back. *)
Lemma good_solution_restores self sm CP ext self' m :
  update self sm CP ext = Ok (self', m) ->
  is_bad (solution_of self self' sm ext) = false ->
  solution_invalid_cnt self' = 0%Z /\ pathPlan_mpcSolutionValid m = true.
Proof.
  intros H Hgood.
  destruct (update_steering _ _ _ _ _ _ H)
    as (_ & dd & rd & _ & _ & _ & _ & _ & Hcnt & Hvalid & _).
  rewrite Hgood in Hcnt. rewrite Hvalid, Hcnt. split; reflexivity.
Qed.


(** C2, amended: on a tick whose horizon has no NaN, [cur_state.delta] is
    [delta_desired], so the published angle is the authority limiter
    applied to [degrees(cur_state.delta * sr) + angle_offset], and equals
    it whenever the limiter leaves it alone; on a tick with a NaN in the
    horizon, [cur_state.delta] is reset to
    [radians(angle_steers - angle_offset) / sr]. *)
Theorem delta_is_prelimit_command self sm CP ext self' m :
  update self sm CP ext = Ok (self', m) ->
  let cs := carState sm in
  let commanded := command_of (delta (cur_state self')) sm ext in
  (mpc_nans (solution_of self self' sm ext) = false ->
   pathPlan_angleSteers m = limit_authority cs (vEgo cs * 3.61) commanded
   /\ (limit_authority cs (vEgo cs * 3.61) commanded = commanded ->
       delta_is_command self' m sm ext))
  /\ (mpc_nans (solution_of self self' sm ext) = true ->
      delta (cur_state self') = Fin (measured_delta sm ext)).
Proof.
  intros H cs commanded.
  destruct (update_steering _ _ _ _ _ _ H)
    as (_ & dd & rd & Hsrc & Hang & _ & _ & Hdelta & _).
  split; intros Hn; rewrite Hn in Hdelta; [|exact Hdelta].
  subst commanded cs. cbv zeta in Hang. rewrite Hdelta. split; [exact Hang|].
  intros Hfree. unfold delta_is_command. rewrite Hdelta, Hang, Hfree.
  assert (Hfin : exists q, dd = Fin q).
  { destruct (controlsState_active sm).
    - destruct Hsrc as [Hidx _]. apply (index_no_nan _ _ _ Hn Hidx).
    - destruct Hsrc as [-> _]. eauto. }
  destruct Hfin as [q ->]. cbn. reflexivity.
Qed.

(** ** Worked ticks *)

(** Runs [step self t] and names the result. *)
Ltac run_step self t Hstep :=
  let r := eval vm_compute in (step self t) in
  match r with
  | Ok (?s', ?m) =>
      assert (Hstep : step self t = Ok (s', m)) by (vm_compute; reflexivity);
      exists s', m; split; [exact Hstep|]
  end.

Lemma authority_limiter_regimes_witness :
  exists self' m,
    step Scenario.planner Scenario.fight = Ok (self', m)
    /\ feq (pathPlan_angleSteers m) (Fin 5)
    /\ exists delta_desired : pyfloat,
         index (log_delta (solution_of Scenario.planner self'
                             (tick_sm Scenario.fight) (tick_ext Scenario.fight))) 1
         = Ok delta_desired
         /\ authority_regimes (carState (tick_sm Scenario.fight)) (20 * 3.61)
              (command_of delta_desired (tick_sm Scenario.fight)
                 (tick_ext Scenario.fight))
              (pathPlan_angleSteers m).
Proof.
  run_step Scenario.planner Scenario.fight Hstep.
  split; [vm_compute; reflexivity|].
  exact (authority_limiter_regimes _ _ _ _ _ _ Hstep).
Defined.

Lemma solution_invalid_cnt_rule_witness :
  exists self' m,
    step Scenario.planner (Scenario.cruise Scenario.costly) = Ok (self', m)
    /\ solution_invalid_cnt self' = 1%Z
    /\ pathPlan_mpcSolutionValid m = true.
Proof.
  run_step Scenario.planner (Scenario.cruise Scenario.costly) Hstep.
  destruct (solution_invalid_cnt_rule _ _ _ _ _ _ Hstep) as (Hcnt & Hvalid & _).
  split; [exact Hcnt | exact Hvalid].
Defined.



Lemma delta_is_prelimit_command_witness :
  exists self' m,
    step Scenario.planner Scenario.fight = Ok (self', m)
    /\ pathPlan_angleSteers m
       = limit_authority (carState (tick_sm Scenario.fight)) (20 * 3.61)
           (command_of (delta (cur_state self')) (tick_sm Scenario.fight)
              (tick_ext Scenario.fight)).
Proof.
  run_step Scenario.planner Scenario.fight Hstep.
  destruct (delta_is_prelimit_command _ _ _ _ _ _ Hstep) as [Hgood _].
  destruct (Hgood eq_refl) as [Hang _]. exact Hang.
Defined.

(** C2 as stated fails when the limiter clamps: at a standstill the
    solver's 0.01 rad is stored in [cur_state.delta], 8.6 degrees at the
    steering wheel, while the message carries the low-speed limit of 1
    degree. *)
Lemma clamped_command_differs_from_delta :
  exists self' m,
    step Scenario.planner Scenario.crawl = Ok (self', m)
    /\ delta (cur_state self') = Fin 0.01
    /\ feq (pathPlan_angleSteers m) (Fin 1)
    /\ ~ delta_is_command self' m (tick_sm Scenario.crawl) (tick_ext Scenario.crawl).
Proof.
  eexists; eexists. split; [vm_compute; reflexivity|].
  split; [reflexivity|]. split; [vm_compute; reflexivity|].
  unfold delta_is_command. vm_compute. intros H. discriminate H.
Qed.

(** The same divergence on a NaN tick: [cur_state.delta] is reset to the
    measured angle while the message carries NaN. *)
Lemma nan_command_differs_from_delta :
  exists self' m,
    step Scenario.planner (Scenario.cruise Scenario.broken) = Ok (self', m)
    /\ pathPlan_angleSteers m = NaN
    /\ delta (cur_state self') = Fin (0 * (pi / 180) / 15)
    /\ ~ delta_is_command self' m (tick_sm (Scenario.cruise Scenario.broken))
           (tick_ext (Scenario.cruise Scenario.broken)).
Proof.
  eexists; eexists. split; [vm_compute; reflexivity|].
  split; [reflexivity|]. split; [vm_compute; reflexivity|].
  unfold delta_is_command. cbn. tauto.
Qed.

(** Scenario 6 of section 8 with the solver bad throughout: the first two
    messages are valid, the third and fourth are not, a good solution
    restores the flag. *)
Example three_bad_solutions :
  match run Scenario.planner
          [Scenario.cruise Scenario.costly; Scenario.cruise Scenario.broken;
           Scenario.cruise Scenario.costly; Scenario.cruise Scenario.broken;
           Scenario.cruise Scenario.good] with
  | Ok (_, msgs) =>
      map pathPlan_mpcSolutionValid msgs = [true; true; false; false; true]
  | Raise _ => False
  end.
Proof. vm_compute. reflexivity. Qed.

(** When the vehicle model exposes the ratio it was just given, as
    section 4.5 of the specification takes it to, the floor of line 119
    keeps the ratio away from zero and no division of the tick raises. *)
Lemma floored_ratio_nonzero (sm : SubMaster) (ext : Collaborators) :
  sR (VM_of sm ext) == max (steerRatio (liveParameters sm)) 0.1 ->
  ~ sR (VM_of sm ext) == 0.
Proof.
  intros ->.
  destruct (max_spec (steerRatio (liveParameters sm)) 0.1) as [[H ->] | [H ->]]; lra.
Qed.

(** * Further properties *)

(** ** The limiter, again *)

(** X1: clamping twice with the same non-negative limit and offset is
    clamping once. *)
Theorem limit_ctrl_idempotent (value limit offset : Q) :
  0 <= limit ->
  limit_ctrl (limit_ctrl (Fin value) (Fin limit) (Fin offset)) (Fin limit) (Fin offset)
  = limit_ctrl (Fin value) (Fin limit) (Fin offset).
Proof.
  intros HL.
  destruct (limit_ctrl_in_window value limit offset HL) as (r & -> & Hlo & Hhi).
  now apply limit_ctrl_inside.
Qed.

Lemma limit_ctrl_idempotent_witness :
  0 <= 5
  /\ limit_ctrl (limit_ctrl (Fin 10) (Fin 5) (Fin 0)) (Fin 5) (Fin 0)
     = limit_ctrl (Fin 10) (Fin 5) (Fin 0).
Proof.
  split; [lra | apply (limit_ctrl_idempotent 10 5 0); lra].
Defined.

(** X2: with a non-negative limit the limiter is monotone in the value:
    a larger request never gives a smaller result. *)
Theorem limit_ctrl_monotone (v1 v2 limit offset : Q) :
  0 <= limit -> v1 <= v2 ->
  exists r1 r2 : Q,
    limit_ctrl (Fin v1) (Fin limit) (Fin offset) = Fin r1
    /\ limit_ctrl (Fin v2) (Fin limit) (Fin offset) = Fin r2
    /\ r1 <= r2.
Proof.
  intros HL Hv. rewrite !limit_ctrl_finite.
  eexists; eexists; split; [reflexivity|]; split; [reflexivity|].
  destruct (v1 >? offset + limit) eqn:H1;
    [apply gtb_true_iff in H1 | apply gtb_false_iff in H1];
  destruct (v2 >? offset + limit) eqn:H2;
    [apply gtb_true_iff in H2 | apply gtb_false_iff in H2 | |];
  try destruct (v1 <? offset - limit) eqn:H3;
  try destruct (v2 <? offset - limit) eqn:H4;
  rewrite ?ltb_true_iff, ?ltb_false_iff in *; lra.
Qed.

Lemma limit_ctrl_monotone_witness :
  0 <= 5 /\ -7 <= 10
  /\ exists r1 r2 : Q,
       limit_ctrl (Fin (-7)) (Fin 5) (Fin 0) = Fin r1
       /\ limit_ctrl (Fin 10) (Fin 5) (Fin 0) = Fin r2
       /\ r1 <= r2.
Proof.
  split; [lra|]. split; [lra|]. apply limit_ctrl_monotone; lra.
Defined.

(** The limiter moves a value towards the offset or not at all. *)
Lemma limit_ctrl_towards_offset (v L O : Q) :
  0 <= L ->
  exists r : Q, limit_ctrl (Fin v) (Fin L) (Fin O) = Fin r
    /\ (O <= v -> O <= r /\ r <= v)
    /\ (v <= O -> v <= r /\ r <= O).
Proof.
  intros HL. rewrite limit_ctrl_finite. eexists; split; [reflexivity|].
  destruct (v >? O + L) eqn:Hgt;
    [apply gtb_true_iff in Hgt | apply gtb_false_iff in Hgt].
  - split; intros; lra.
  - destruct (v <? O - L) eqn:Hlt;
      [apply ltb_true_iff in Hlt | apply ltb_false_iff in Hlt]; split; intros; lra.
Qed.

(** ** The delay compensator, again *)

(** The compensator reads only [y] and [delta] of the state it is given. *)
Lemma calc_states_after_delay_overwrites (st1 st2 : state_t)
    (v_ego steer_angle curvature_factor steer_ratio delay : Q) :
  y st1 = y st2 -> delta st1 = delta st2 ->
  calc_states_after_delay st1 v_ego steer_angle curvature_factor steer_ratio delay
  = calc_states_after_delay st2 v_ego steer_angle curvature_factor steer_ratio delay.
Proof.
  intros Hy Hd. unfold calc_states_after_delay. now rewrite Hy, Hd.
Qed.

(** X3: compensating a state that was just compensated with the same
    readings changes nothing: [x] and [psi] do not accumulate from tick to
    tick. *)
Theorem calc_states_after_delay_idempotent (states states' : state_t)
    (v_ego steer_angle curvature_factor steer_ratio delay : Q) :
  calc_states_after_delay states v_ego steer_angle curvature_factor steer_ratio delay
    = Ok states' ->
  calc_states_after_delay states' v_ego steer_angle curvature_factor steer_ratio delay
    = Ok states'.
Proof.
  intros H.
  rewrite (calc_states_after_delay_overwrites states' states); [exact H | |];
    unfold calc_states_after_delay in H;
    destruct (div _ steer_ratio); cbn [bind] in H; try discriminate H;
    injection H as <-; reflexivity.
Qed.

Lemma calc_states_after_delay_idempotent_witness :
  exists states',
    calc_states_after_delay (cur_state Scenario.planner) 20 3 1 15 0.1 = Ok states'
    /\ calc_states_after_delay states' 20 3 1 15 0.1 = Ok states'.
Proof.
  eexists.
  assert (H : calc_states_after_delay (cur_state Scenario.planner) 20 3 1 15 0.1
              = Ok _) by (vm_compute; reflexivity).
  split; [exact H|].
  exact (calc_states_after_delay_idempotent _ _ _ _ _ _ _ H).
Defined.

(** ** One tick, the remaining attributes *)

Lemma update_frame self sm CP ext self' m :
  update self sm CP ext = Ok (self', m) ->
  let cs := carState sm in
  let lp := LP_parse_model ext (LP self) in
  steer_rate_cost self' = steer_rate_cost self
  /\ angle_steers_des self' = angle_steers_des self
  /\ angle_steers_des_time self' = angle_steers_des_time self
  /\ angle_steers_des_prev self' = angle_steers_des_mpc self
  /\ x (cur_state self') = Fin (vEgo cs * steerActuatorDelay CP)
  /\ isnan (psi (cur_state self')) = false
  /\ y (cur_state self') = y (cur_state self)
  /\ LP self'
     = LP_update_d_poly ext
         (match DESIRES (lane_change_direction self') (lane_change_state self') with
          | Desire_none => lp
          | _ => attenuate lp (lane_change_ll_prob self')
          end) (vEgo cs)
  /\ last_cloudlog_t self'
     = (if mpc_nans (solution_of self self' sm ext)
           && (sec_since_boot ext >? last_cloudlog_t self + 5)
        then sec_since_boot ext else last_cloudlog_t self)
  /\ pathPlan_lProb m = l_prob (LP self')
  /\ pathPlan_rProb m = r_prob (LP self').
Proof.
  intros H cs lp. unfold update in H.
  destruct (global_override self sm);
    [|destruct (state_transitions self sm (LP_parse_model ext (LP self))
                 (latch_direction (carState sm) (lane_change_direction self)))
        as [[s p] w]].
  all: bind_inv H cur.
  all: unfold calc_states_after_delay in Ecur; bind_inv Ecur q.
  all: injection Ecur as <-.
  all: bind_inv H des; destruct des as [dd rd]; bind_inv H d'.
  all: injection H as <- <-.
  all: cbn [steer_rate_cost angle_steers_des angle_steers_des_time
            angle_steers_des_prev cur_state set_delta x y psi LP
            lane_change_direction lane_change_state lane_change_ll_prob
            last_cloudlog_t pathPlan_lProb pathPlan_rProb].
  all: repeat split; try reflexivity.
  all: subst lp; destruct (DESIRES _ _); reflexivity.
Qed.

(** ** The lane-change state machine, again *)

Lemma truthy_true_iff (a : Q) : truthy a = true <-> ~ a == 0.
Proof.
  unfold truthy. rewrite negb_true_iff, <- not_true_iff_false, Qeq_bool_iff. tauto.
Qed.

Lemma direction_eqb_true (a b : LaneChangeDirection) :
  LaneChangeDirection_eqb a b = true <-> a = b.
Proof. destruct a, b; cbn; split; congruence. Qed.

(** The [else] branch of line 138, read rule by rule: where the state it
    returns can come from and what the rule asked for. *)
Lemma state_transitions_inv self sm lp d s' p w :
  state_transitions self sm lp d = (s', p, w) ->
  one_blinker sm = true ->
  may_follow (lane_change_state self) s' = true
  /\ (changing_lanes (lane_change_state self) = true -> s' <> off)
  /\ (s' = laneChangeStarting -> lane_change_state self <> laneChangeStarting ->
      lane_change_state self = preLaneChange
      /\ LANE_CHANGE_SPEED_MIN <= vEgo (carState sm)
      /\ ~ blindspot_on (carState sm) d
      /\ (torque_towards (carState sm) d
          \/ (~ lane_change_auto_delay self == 0
              /\ lane_change_auto_delay self < lane_change_wait_timer self + DT_MDL))).
Proof.
  unfold state_transitions. fold (one_blinker sm). intros H Hob. rewrite Hob in H.
  destruct (lane_change_state self) eqn:Hs; cbn [LaneChangeState_eqb andb negb orb] in H.
  - destruct (negb (prev_one_blinker self) && negb _);
      injection H as <- _ _; repeat split; try congruence; discriminate.
  - destruct (vEgo (carState sm) <? LANE_CHANGE_SPEED_MIN) eqn:Hv;
      [injection H as <- _ _; repeat split; try congruence; discriminate|].
    apply ltb_false_iff in Hv.
    match type of H with (if ?c then _ else _) = _ => destruct c eqn:Hc end;
      [|injection H as <- _ _; repeat split; try congruence; discriminate].
    injection H as <- _ _.
    split; [reflexivity|]. split; [discriminate|]. intros _ _.
    split; [reflexivity|]. split; [exact Hv|].
    apply andb_true_iff in Hc. destruct Hc as [Hbs Hgo].
    apply negb_true_iff, orb_false_iff in Hbs. destruct Hbs as [Hl Hr].
    split.
    + intros [[Hb Hd] | [Hb Hd]].
      * rewrite Hb, (proj2 (direction_eqb_true _ _) Hd) in Hl. discriminate Hl.
      * rewrite Hb, (proj2 (direction_eqb_true _ _) Hd) in Hr. discriminate Hr.
    + apply orb_true_iff in Hgo. destruct Hgo as [Ht | Ha].
      * left. apply andb_true_iff in Ht. destruct Ht as [Hp Ht].
        split; [exact Hp|].
        apply orb_true_iff in Ht.
        destruct Ht as [Ht | Ht]; apply andb_true_iff in Ht; destruct Ht as [Hq Hd];
          apply direction_eqb_true in Hd;
          [left; apply gtb_true_iff in Hq | right; apply ltb_true_iff in Hq]; auto.
      * right. apply andb_true_iff in Ha. destruct Ha as [Ha Hw].
        apply truthy_true_iff in Ha. apply gtb_true_iff in Hw. auto.
  - match type of H with (if ?c then _ else _) = _ => destruct c end;
      injection H as <- _ _; repeat split; try congruence; discriminate.
  - match type of H with (if ?c then _ else _) = _ => destruct c end;
      injection H as <- _ _; repeat split; try congruence; discriminate.
  - injection H as <- _ _; repeat split; try congruence; discriminate.
Qed.

(** X4: in one tick the state moves along the chain
    Off, PreLaneChange, Starting, Finishing, Done by at most one step, or
    falls back to Off; no state is skipped and none is revisited without
    passing through Off. *)
Theorem lane_change_state_successor self sm CP ext self' m :
  update self sm CP ext = Ok (self', m) ->
  may_follow (lane_change_state self) (lane_change_state self') = true.
Proof.
  intros H. destruct (update_lane_change _ _ _ _ _ _ H) as (Hlc & _).
  destruct (global_override self sm) eqn:Hov.
  - destruct Hlc as (-> & _). now destruct (lane_change_state self).
  - destruct Hlc as (Hst & _).
    apply global_override_false in Hov. destruct Hov as (_ & _ & Hob & _).
    apply (state_transitions_inv _ _ _ _ _ _ _ Hst Hob).
Qed.

Lemma lane_change_state_successor_witness :
  exists self' m,
    step Scenario.planner Scenario.blinker_fast = Ok (self', m)
    /\ lane_change_state self' = preLaneChange
    /\ may_follow (lane_change_state Scenario.planner) (lane_change_state self') = true.
Proof.
  run_step Scenario.planner Scenario.blinker_fast Hstep.
  split; [reflexivity|].
  exact (lane_change_state_successor _ _ _ _ _ _ Hstep).
Defined.

(** X5: a lane-change desire is published only on an engaged tick of a
    planner with lane changes enabled, with exactly one blinker on, in one
    of the states Starting, Finishing, Done, and it is the desire of the
    side of that blinker. *)
Theorem desire_needs_blinker self sm CP ext self' m :
  update self sm CP ext = Ok (self', m) ->
  pathPlan_desire m <> Desire_none ->
  controlsState_active sm = true
  /\ lane_change_enabled self = true
  /\ leftBlinker (carState sm) <> rightBlinker (carState sm)
  /\ changing_lanes (pathPlan_laneChangeState m) = true
  /\ pathPlan_desire m
     = (if leftBlinker (carState sm) then Desire_laneChangeLeft
        else Desire_laneChangeRight).
Proof.
  intros H Hdes.
  destruct (update_lane_change _ _ _ _ _ _ H)
    as (Hlc & _ & _ & _ & _ & Hms & _ & Hd).
  rewrite Hd in Hdes |- *. rewrite Hms.
  destruct (global_override self sm) eqn:Hov.
  - destruct Hlc as (_ & Hdir & _). rewrite Hdir in Hdes. now contradiction Hdes.
  - destruct Hlc as (_ & Hdir).
    apply global_override_false in Hov. destruct Hov as (Hact & _ & Hob & Hen).
    destruct (latch_direction_one_blinker sm (lane_change_direction self) Hob)
      as [Hside _].
    rewrite <- Hdir in Hside. rewrite Hside in Hdes |- *.
    split; [exact Hact|]. split; [exact Hen|].
    split.
    { unfold one_blinker in Hob.
      destruct (leftBlinker (carState sm)), (rightBlinker (carState sm));
        cbn in Hob; congruence. }
    destruct (leftBlinker (carState sm)), (lane_change_state self');
      cbn in Hdes |- *; split; congruence.
Qed.

Lemma desire_needs_blinker_witness :
  exists self msgs self' m,
    run Scenario.planner [Scenario.blinker_fast] = Ok (self, msgs)
    /\ step self Scenario.blinker_fast_torque = Ok (self', m)
    /\ pathPlan_desire m = Desire_laneChangeLeft
    /\ changing_lanes (pathPlan_laneChangeState m) = true.
Proof.
  let r := eval vm_compute in (run Scenario.planner [Scenario.blinker_fast]) in
  match r with
  | Ok (?s, ?ms) =>
      assert (Hrun : run Scenario.planner [Scenario.blinker_fast] = Ok (s, ms))
        by (vm_compute; reflexivity);
      exists s, ms;
      let r' := eval vm_compute in (step s Scenario.blinker_fast_torque) in
      match r' with
      | Ok (?s', ?m) =>
          assert (Hstep : step s Scenario.blinker_fast_torque = Ok (s', m))
            by (vm_compute; reflexivity);
          assert (Hdes : pathPlan_desire m <> Desire_none) by discriminate;
          exists s', m
      end
  end.
  split; [exact Hrun|]. split; [exact Hstep|].
  destruct (desire_needs_blinker _ _ _ _ _ _ Hstep Hdes) as (_ & _ & _ & Hch & Hd).
  split; [exact Hd | exact Hch].
Defined.

(** One tick keeps the run timer between zero and one period above the
    cutoff, and at zero outside a lane change. *)
Lemma update_run_timer self sm CP ext self' m :
  update self sm CP ext = Ok (self', m) ->
  0 <= lane_change_run_timer self ->
  (0 <= lane_change_run_timer self'
   /\ lane_change_run_timer self' <= LANE_CHANGE_TIME_MAX + DT_MDL)
  /\ (changing_lanes (lane_change_state self') = false ->
      lane_change_run_timer self' = 0).
Proof.
  intros H Hpos.
  destruct (update_lane_change _ _ _ _ _ _ H) as (Hlc & Hrt & _).
  assert (Hmax : changing_lanes (lane_change_state self') = true ->
                 lane_change_run_timer self <= LANE_CHANGE_TIME_MAX).
  { intros Hch. destruct (global_override self sm) eqn:Hov.
    - destruct Hlc as (Hs & _). rewrite Hs in Hch. discriminate Hch.
    - now apply global_override_false in Hov. }
  unfold LANE_CHANGE_TIME_MAX, DT_MDL in *.
  destruct (lane_change_state self'); rewrite Hrt; cbn [changing_lanes] in *;
    (split; [|intros; try reflexivity; discriminate]);
    try lra; specialize (Hmax eq_refl); lra.
Qed.

(** X6: from construction on, at every tick boundary the run timer is
    zero in Off and PreLaneChange, and never exceeds
    [LANE_CHANGE_TIME_MAX + DT_MDL]: a lane change that has run longer than
    ten seconds does not survive the next tick. *)
Theorem run_timer_bounded CP params LP0 ticks : forall self msgs,
  run (init CP params LP0) ticks = Ok (self, msgs) ->
  0 <= lane_change_run_timer self
  /\ lane_change_run_timer self <= LANE_CHANGE_TIME_MAX + DT_MDL
  /\ (changing_lanes (lane_change_state self) = false ->
      lane_change_run_timer self = 0).
Proof.
  set (P := fun s : PathPlanner =>
              0 <= lane_change_run_timer s
              /\ lane_change_run_timer s <= LANE_CHANGE_TIME_MAX + DT_MDL
              /\ (changing_lanes (lane_change_state s) = false ->
                  lane_change_run_timer s = 0)).
  assert (Hgen : forall ticks s s' msgs,
             run s ticks = Ok (s', msgs) -> P s -> P s').
  { clear ticks. induction ticks as [|t ticks IH]; intros s s' msgs Hrun Hp.
    - cbn in Hrun. now injection Hrun as <- <-.
    - apply run_cons_inv in Hrun. destruct Hrun as (s1 & m1 & ms & Hs & Hr & _).
      apply (IH _ _ _ Hr). destruct Hp as (Hpos & _).
      destruct (update_run_timer _ _ _ _ _ _ Hs Hpos) as ((H1 & H2) & H3).
      repeat split; assumption. }
  intros self msgs Hrun. apply (Hgen _ _ _ _ Hrun).
  unfold P, LANE_CHANGE_TIME_MAX, DT_MDL. cbn. repeat split; try lra.
Qed.

Lemma run_timer_bounded_witness :
  exists self msgs,
    run Scenario.planner
      [Scenario.blinker_fast; Scenario.blinker_fast_torque;
       Scenario.blinker_fast_torque] = Ok (self, msgs)
    /\ lane_change_state self = laneChangeStarting
    /\ 0 <= lane_change_run_timer self
    /\ lane_change_run_timer self <= LANE_CHANGE_TIME_MAX + DT_MDL.
Proof.
  let r := eval vm_compute in
    (run Scenario.planner
       [Scenario.blinker_fast; Scenario.blinker_fast_torque;
        Scenario.blinker_fast_torque]) in
  match r with
  | Ok (?s, ?ms) =>
      assert (Hrun : run Scenario.planner
                       [Scenario.blinker_fast; Scenario.blinker_fast_torque;
                        Scenario.blinker_fast_torque] = Ok (s, ms))
        by (vm_compute; reflexivity);
      exists s, ms
  end.
  split; [exact Hrun|]. split; [reflexivity|].
  destruct (run_timer_bounded _ _ _ _ _ _ Hrun) as (H1 & H2 & _).
  split; assumption.
Defined.

(** X7: Starting is entered only from PreLaneChange, at or above the
    lane-change speed, with no blindspot asserted on the side of the
    blinker, and with the driver pushing the wheel towards that side or
    with a non-zero auto-start delay exceeded by the wait timer as this
    tick advances it. *)
Theorem starting_entry_conditions self sm CP ext self' m :
  update self sm CP ext = Ok (self', m) ->
  lane_change_state self' = laneChangeStarting ->
  lane_change_state self <> laneChangeStarting ->
  let cs := carState sm in
  let side := if leftBlinker cs then left else right in
  lane_change_state self = preLaneChange
  /\ pathPlan_laneChangeDirection m = side
  /\ LANE_CHANGE_SPEED_MIN <= vEgo cs
  /\ ~ blindspot_on cs side
  /\ (torque_towards cs side
      \/ (~ lane_change_auto_delay self == 0
          /\ lane_change_auto_delay self < lane_change_wait_timer self + DT_MDL)).
Proof.
  intros H Hs' Hs cs side. subst cs side.
  destruct (update_lane_change _ _ _ _ _ _ H)
    as (Hlc & _ & _ & _ & _ & _ & Hmd & _).
  destruct (global_override self sm) eqn:Hov.
  - destruct Hlc as (Hoff & _). congruence.
  - destruct Hlc as (Hst & Hdir).
    apply global_override_false in Hov. destruct Hov as (_ & _ & Hob & _).
    destruct (latch_direction_one_blinker sm (lane_change_direction self) Hob)
      as [Hside _].
    rewrite Hside in Hst, Hdir.
    destruct (state_transitions_inv _ _ _ _ _ _ _ Hst Hob) as (_ & _ & Hstart).
    destruct (Hstart Hs' Hs) as (Hpre & Hv & Hbs & Hgo).
    repeat split; auto. congruence.
Qed.

Lemma starting_entry_conditions_witness :
  exists self msgs self' m,
    run Scenario.planner [Scenario.blinker_fast] = Ok (self, msgs)
    /\ step self Scenario.blinker_fast_torque = Ok (self', m)
    /\ lane_change_state self' = laneChangeStarting
    /\ lane_change_state self = preLaneChange
    /\ torque_towards (carState (tick_sm Scenario.blinker_fast_torque)) left.
Proof.
  let r := eval vm_compute in (run Scenario.planner [Scenario.blinker_fast]) in
  match r with
  | Ok (?s, ?ms) =>
      assert (Hrun : run Scenario.planner [Scenario.blinker_fast] = Ok (s, ms))
        by (vm_compute; reflexivity);
      exists s, ms;
      let r' := eval vm_compute in (step s Scenario.blinker_fast_torque) in
      match r' with
      | Ok (?s', ?m) =>
          assert (Hstep : step s Scenario.blinker_fast_torque = Ok (s', m))
            by (vm_compute; reflexivity);
          assert (Hne : lane_change_state s <> laneChangeStarting) by discriminate;
          exists s', m
      end
  end.
  split; [exact Hrun|]. split; [exact Hstep|]. split; [reflexivity|].
  destruct (starting_entry_conditions _ _ _ _ _ _ Hstep eq_refl Hne)
    as (Hpre & _ & _ & _ & [Ht | [_ Hw]]).
  - split; [exact Hpre | exact Ht].
  - exfalso. vm_compute in Hw. discriminate Hw.
Defined.

(** X8: a lane change under way (Starting, Finishing or Done) is
    abandoned for Off exactly on the ticks where the global override
    fires; the per-state rules never lead from these states to Off, the
    rule of lines 186-187 included. *)
Theorem lane_change_abandoned_iff_override self sm CP ext self' m :
  update self sm CP ext = Ok (self', m) ->
  changing_lanes (lane_change_state self) = true ->
  (lane_change_state self' = off <-> override_condition self sm).
Proof.
  intros H Hch. rewrite <- global_override_iff.
  destruct (update_lane_change _ _ _ _ _ _ H) as (Hlc & _).
  destruct (global_override self sm) eqn:Hov.
  - destruct Hlc as (Hoff & _). tauto.
  - destruct Hlc as (Hst & _).
    apply global_override_false in Hov. destruct Hov as (_ & _ & Hob & _).
    destruct (state_transitions_inv _ _ _ _ _ _ _ Hst Hob) as (_ & Hne & _).
    split; [intros Hoff; now apply Hne in Hoff | discriminate].
Qed.

Lemma lane_change_abandoned_iff_override_witness :
  exists self msgs self' m,
    run Scenario.planner [Scenario.blinker_fast; Scenario.blinker_fast_torque]
      = Ok (self, msgs)
    /\ step self Scenario.blinker_slow = Ok (self', m)
    /\ lane_change_state self = laneChangeStarting
    /\ lane_change_state self' = laneChangeStarting
    /\ ~ override_condition self (tick_sm Scenario.blinker_slow).
Proof.
  let r := eval vm_compute in
    (run Scenario.planner [Scenario.blinker_fast; Scenario.blinker_fast_torque]) in
  match r with
  | Ok (?s, ?ms) =>
      assert (Hrun : run Scenario.planner
                       [Scenario.blinker_fast; Scenario.blinker_fast_torque]
                     = Ok (s, ms)) by (vm_compute; reflexivity);
      exists s, ms;
      let r' := eval vm_compute in (step s Scenario.blinker_slow) in
      match r' with
      | Ok (?s', ?m) =>
          assert (Hstep : step s Scenario.blinker_slow = Ok (s', m))
            by (vm_compute; reflexivity);
          assert (Hch : changing_lanes (lane_change_state s) = true) by reflexivity;
          exists s', m
      end
  end.
  split; [exact Hrun|]. split; [exact Hstep|].
  split; [reflexivity|]. split; [reflexivity|].
  intros Hov.
  apply (lane_change_abandoned_iff_override _ _ _ _ _ _ Hstep Hch) in Hov.
  discriminate Hov.
Defined.

(** ** The planner over a run *)

(** X9: what [__init__] reads from the parameter store and the car
    parameters is never written again: after any run the planner still has
    the [lane_change_enabled], [lane_change_auto_delay] and
    [steer_rate_cost] it started with. *)
Theorem construction_parameters_frozen ticks : forall self self' msgs,
  run self ticks = Ok (self', msgs) ->
  lane_change_enabled self' = lane_change_enabled self
  /\ lane_change_auto_delay self' = lane_change_auto_delay self
  /\ steer_rate_cost self' = steer_rate_cost self.
Proof.
  induction ticks as [|t ticks IH]; intros self self' msgs Hrun.
  - cbn in Hrun. injection Hrun as <- <-. auto.
  - apply run_cons_inv in Hrun. destruct Hrun as (s1 & m1 & ms & Hs & Hr & _).
    destruct (IH _ _ _ Hr) as (H1 & H2 & H3).
    destruct (update_lane_change _ _ _ _ _ _ Hs) as (_ & _ & _ & He & Ha & _).
    destruct (update_frame _ _ _ _ _ _ Hs) as (Hc & _).
    repeat split; congruence.
Qed.

Lemma construction_parameters_frozen_witness :
  exists self' msgs,
    run Scenario.planner
      [Scenario.blinker_fast; Scenario.cruise Scenario.broken] = Ok (self', msgs)
    /\ lane_change_enabled self' = true
    /\ lane_change_auto_delay self' = 2.
Proof.
  let r := eval vm_compute in
    (run Scenario.planner [Scenario.blinker_fast; Scenario.cruise Scenario.broken]) in
  match r with
  | Ok (?s, ?ms) =>
      assert (Hrun : run Scenario.planner
                       [Scenario.blinker_fast; Scenario.cruise Scenario.broken]
                     = Ok (s, ms)) by (vm_compute; reflexivity);
      exists s, ms
  end.
  split; [exact Hrun|].
  destruct (construction_parameters_frozen _ _ _ _ Hrun) as (H1 & H2 & _).
  split; [exact H1 | exact H2].
Defined.

(** Whatever the solver answers, a completed tick leaves no NaN in
    [cur_state.delta], and [y] as it was. *)
Lemma update_delta_not_nan self sm CP ext self' m :
  update self sm CP ext = Ok (self', m) ->
  isnan (delta (cur_state self')) = false
  /\ y (cur_state self') = y (cur_state self).
Proof.
  intros H.
  destruct (update_frame _ _ _ _ _ _ H) as (_ & _ & _ & _ & _ & _ & Hy & _).
  destruct (update_steering _ _ _ _ _ _ H)
    as (_ & dd & rd & Hsrc & _ & _ & _ & Hdelta & _).
  split; [|exact Hy].
  rewrite Hdelta. unfold mpc_nans.
  destruct (existsb isnan _) eqn:Hn; [reflexivity|].
  destruct (controlsState_active sm).
  - destruct Hsrc as [Hidx _].
    destruct (index_no_nan _ _ _ Hn Hidx) as [q ->]. reflexivity.
  - destruct Hsrc as [-> _]. reflexivity.
Qed.

(** X10: from construction on, at every tick boundary [cur_state.delta]
    is not NaN, also right after a solution with NaNs in it: the solver is
    never started from a NaN steering angle; and [cur_state.y] is still
    the 0 of [setup_mpc]. *)
Theorem cur_state_delta_never_nan CP params LP0 ticks : forall self msgs,
  run (init CP params LP0) ticks = Ok (self, msgs) ->
  isnan (delta (cur_state self)) = false /\ y (cur_state self) = Fin 0.
Proof.
  assert (Hgen : forall ticks s s' msgs,
             run s ticks = Ok (s', msgs) ->
             isnan (delta (cur_state s)) = false /\ y (cur_state s) = Fin 0 ->
             isnan (delta (cur_state s')) = false /\ y (cur_state s') = Fin 0).
  { clear ticks. induction ticks as [|t ticks IH]; intros s s' msgs Hrun Hp.
    - cbn in Hrun. now injection Hrun as <- <-.
    - apply run_cons_inv in Hrun. destruct Hrun as (s1 & m1 & ms & Hs & Hr & _).
      apply (IH _ _ _ Hr). destruct Hp as (_ & Hy0).
      destruct (update_delta_not_nan _ _ _ _ _ _ Hs) as (Hd & Hy).
      split; [exact Hd | congruence]. }
  intros self msgs Hrun. apply (Hgen _ _ _ _ Hrun).
  cbn. split; reflexivity.
Qed.

Lemma cur_state_delta_never_nan_witness :
  exists self msgs,
    run Scenario.planner
      [Scenario.cruise Scenario.broken; Scenario.cruise Scenario.broken]
      = Ok (self, msgs)
    /\ map pathPlan_angleSteers msgs = [NaN; NaN]
    /\ isnan (delta (cur_state self)) = false.
Proof.
  let r := eval vm_compute in
    (run Scenario.planner
       [Scenario.cruise Scenario.broken; Scenario.cruise Scenario.broken]) in
  match r with
  | Ok (?s, ?ms) =>
      assert (Hrun : run Scenario.planner
                       [Scenario.cruise Scenario.broken; Scenario.cruise Scenario.broken]
                     = Ok (s, ms)) by (vm_compute; reflexivity);
      exists s, ms
  end.
  split; [exact Hrun|]. split; [reflexivity|].
  exact (proj1 (cur_state_delta_never_nan _ _ _ _ _ _ Hrun)).
Defined.

(** X12: [angle_steers_des_prev] is the angle published one tick earlier:
    after two ticks in a row it holds the [angleSteers] of the first. *)
Theorem angle_steers_des_prev_is_last_published s1 sm1 CP1 ext1 s2 m1
    sm2 CP2 ext2 s3 m2 :
  update s1 sm1 CP1 ext1 = Ok (s2, m1) ->
  update s2 sm2 CP2 ext2 = Ok (s3, m2) ->
  angle_steers_des_prev s3 = pathPlan_angleSteers m1
  /\ angle_steers_des_mpc s3 = pathPlan_angleSteers m2.
Proof.
  intros H1 H2.
  destruct (update_frame _ _ _ _ _ _ H2) as (_ & _ & _ & Hprev & _).
  destruct (update_steering _ _ _ _ _ _ H1) as (_ & ? & ? & _ & _ & Hm1 & _).
  destruct (update_steering _ _ _ _ _ _ H2) as (_ & ? & ? & _ & _ & Hm2 & _).
  split; congruence.
Qed.

Lemma angle_steers_des_prev_is_last_published_witness :
  exists s2 m1 s3 m2,
    step Scenario.planner Scenario.fight = Ok (s2, m1)
    /\ step s2 Scenario.disengaged = Ok (s3, m2)
    /\ feq (angle_steers_des_prev s3) (Fin 5)
    /\ feq (angle_steers_des_mpc s3) (Fin 7).
Proof.
  let r := eval vm_compute in (step Scenario.planner Scenario.fight) in
  match r with
  | Ok (?s, ?m) =>
      assert (H1 : step Scenario.planner Scenario.fight = Ok (s, m))
        by (vm_compute; reflexivity);
      exists s, m;
      let r' := eval vm_compute in (step s Scenario.disengaged) in
      match r' with
      | Ok (?s', ?m') =>
          assert (H2 : step s Scenario.disengaged = Ok (s', m'))
            by (vm_compute; reflexivity);
          exists s', m'
      end
  end.
  split; [exact H1|]. split; [exact H2|].
  destruct (angle_steers_des_prev_is_last_published _ _ _ _ _ _ _ _ _ _ _ H1 H2)
    as [Hp Hm].
  rewrite Hp, Hm. split; vm_compute; reflexivity.
Defined.

(** ** The solver and the published command, again *)

Lemma max_lower_bound (a b : Q) : b <= max a b.
Proof. destruct (max_spec a b) as [[H ->] | [H ->]]; lra. Qed.

(** X11: the solver is never asked about a speed below 5 m/s: replacing it
    by any solver that agrees with it from 5 m/s on changes neither the
    planner nor the message of a tick, raised exceptions included. *)
Theorem solver_speed_floor self sm CP ext
    (f : state_t -> LanePlanner -> Q -> Q -> log_t) :
  (forall st lp k v, 5 <= v -> f st lp k v = libmpc_run_mpc ext st lp k v) ->
  update self sm CP (with_solver ext f) = update self sm CP ext.
Proof.
  intros Hf. unfold update, with_solver.
  cbn [VM_update_params LP_parse_model LP_update_d_poly libmpc_run_mpc sec_since_boot].
  destruct (if global_override self sm then _ else _) as [[[s d] p] w].
  destruct (calc_states_after_delay _ _ _ _ _ _) as [cur|e]; cbn [bind];
    [|reflexivity].
  rewrite Hf by apply max_lower_bound. reflexivity.
Qed.

Lemma solver_speed_floor_witness :
  let f := fun (st : state_t) (lp : LanePlanner) (k v : Q) =>
             if v <? 5 then Scenario.broken else Scenario.good in
  (forall st lp k v, 5 <= v ->
     f st lp k v = libmpc_run_mpc (Scenario.solver Scenario.good) st lp k v)
  /\ update Scenario.planner (tick_sm Scenario.crawl) Scenario.CP
       (with_solver (Scenario.solver Scenario.good) f)
     = update Scenario.planner (tick_sm Scenario.crawl) Scenario.CP
         (Scenario.solver Scenario.good).
Proof.
  intros f.
  assert (Hf : forall st lp k v, 5 <= v ->
             f st lp k v = libmpc_run_mpc (Scenario.solver Scenario.good) st lp k v).
  { intros st lp k v Hv. unfold f.
    destruct (v <? 5) eqn:E; [|reflexivity].
    apply ltb_true_iff in E. lra. }
  split; [exact Hf|].
  exact (solver_speed_floor _ _ _ _ f Hf).
Defined.

Lemma limit_authority_nan (cs : CarState) (v_kph : Q) :
  limit_authority cs v_kph NaN = NaN.
Proof.
  unfold limit_authority. cbn [fsub fgt flt].
  destruct (steeringPressed cs).
  - destruct (steeringTorque cs <? 0); [reflexivity|].
    destruct (steeringTorque cs >? 0); reflexivity.
  - destruct (v_kph <? 30); reflexivity.
Qed.

Lemma index_nan_mpc_nans (sol : log_t) (i : nat) :
  index (log_delta sol) i = Ok NaN -> mpc_nans sol = true.
Proof.
  unfold index, mpc_nans. intros H.
  destruct (nth_error (log_delta sol) i) as [a|] eqn:E; [|discriminate].
  injection H as ->. apply nth_error_In in E.
  apply existsb_exists. now exists NaN.
Qed.

(** X13: on an engaged tick whose solution has a NaN at [delta[1]], the
    NaN goes through the limiter into the published [angleSteers]; the
    count of bad solutions goes up by one, so the message still says
    [mpcSolutionValid] when fewer than two bad solutions came before; and
    [cur_state.delta] is reset to the measured angle. *)
Theorem nan_solution_is_published self sm CP ext self' m :
  update self sm CP ext = Ok (self', m) ->
  controlsState_active sm = true ->
  index (log_delta (solution_of self self' sm ext)) 1 = Ok NaN ->
  pathPlan_angleSteers m = NaN
  /\ solution_invalid_cnt self' = (solution_invalid_cnt self + 1)%Z
  /\ pathPlan_mpcSolutionValid m = (solution_invalid_cnt self + 1 <? 3)%Z
  /\ delta (cur_state self') = Fin (measured_delta sm ext).
Proof.
  intros H Hact Hnan.
  destruct (update_steering _ _ _ _ _ _ H)
    as (_ & dd & rd & Hsrc & Hang & _ & _ & Hdelta & Hcnt & Hvalid & _).
  rewrite Hact in Hsrc. destruct Hsrc as [Hidx _].
  rewrite Hnan in Hidx. injection Hidx as <-.
  pose proof (index_nan_mpc_nans _ _ Hnan) as Hn.
  unfold is_bad in Hcnt. rewrite Hn, orb_true_r in Hcnt. rewrite Hn in Hdelta.
  split; [rewrite Hang; apply limit_authority_nan|].
  split; [exact Hcnt|]. split; [now rewrite Hvalid, Hcnt | exact Hdelta].
Qed.

Lemma nan_solution_is_published_witness :
  exists self' m,
    step Scenario.planner (Scenario.cruise Scenario.broken) = Ok (self', m)
    /\ pathPlan_angleSteers m = NaN
    /\ pathPlan_mpcSolutionValid m = true.
Proof.
  run_step Scenario.planner (Scenario.cruise Scenario.broken) Hstep.
  destruct (nan_solution_is_published _ _ _ _ _ _ Hstep eq_refl eq_refl)
    as (Hang & _ & Hvalid & _).
  split; [exact Hang | exact Hvalid].
Defined.

Lemma limit_authority_towards_wheel (cs : CarState) (v_kph o : Q) :
  exists r : Q,
    limit_authority cs v_kph (Fin o) = Fin r
    /\ (steeringAngle cs <= o -> steeringAngle cs <= r /\ r <= o)
    /\ (o <= steeringAngle cs -> o <= r /\ r <= steeringAngle cs).
Proof.
  unfold limit_authority.
  pose proof (torque_limit_bounds (steeringTorque cs)) as [Ht _].
  pose proof (low_speed_limit_bounds v_kph) as [Hv _].
  set (lt := interp (steeringTorque cs) _ _) in *. clearbody lt.
  set (lv := interp v_kph _ _) in *. clearbody lv.
  assert (Hlv : 0 <= lv) by lra.
  assert (Hsame : exists r : Q, Fin o = Fin r
            /\ (steeringAngle cs <= o -> steeringAngle cs <= r /\ r <= o)
            /\ (o <= steeringAngle cs -> o <= r /\ r <= steeringAngle cs))
    by (exists o; repeat split; auto; lra).
  pose proof (limit_ctrl_towards_offset o lt (steeringAngle cs) Ht) as Hct.
  pose proof (limit_ctrl_towards_offset o lv (steeringAngle cs) Hlv) as Hcv.
  destruct (steeringPressed cs).
  - destruct (steeringTorque cs <? 0).
    + destruct (Fin o -! Fin (steeringAngle cs) >! Fin 0); assumption.
    + destruct (steeringTorque cs >? 0); [|assumption].
      destruct (Fin o -! Fin (steeringAngle cs) <! Fin 0); assumption.
  - destruct (v_kph <? 30); assumption.
Qed.

(** X14: the limiter only ever pulls the command towards the measured
    steering angle: when the angle before the limiter is finite, the
    published angle lies between the measured angle and that angle, so it
    is never further from the wheel and never on the other side of it. *)
Theorem published_angle_between_wheel_and_request self sm CP ext self' m :
  update self sm CP ext = Ok (self', m) ->
  exists delta_desired : pyfloat,
    (if controlsState_active sm
     then index (log_delta (solution_of self self' sm ext)) 1 = Ok delta_desired
     else delta_desired = Fin (measured_delta sm ext))
    /\ forall o : Q,
         command_of delta_desired sm ext = Fin o ->
         exists r : Q,
           pathPlan_angleSteers m = Fin r
           /\ (steeringAngle (carState sm) <= o ->
               steeringAngle (carState sm) <= r /\ r <= o)
           /\ (o <= steeringAngle (carState sm) ->
               o <= r /\ r <= steeringAngle (carState sm)).
Proof.
  intros H.
  destruct (update_steering _ _ _ _ _ _ H) as (_ & dd & rd & Hsrc & Hang & _).
  exists dd. split.
  - destruct (controlsState_active sm); tauto.
  - intros o Ho. rewrite Hang, Ho. apply limit_authority_towards_wheel.
Qed.

Lemma published_angle_between_wheel_and_request_witness :
  exists self' m r,
    step Scenario.planner Scenario.crawl = Ok (self', m)
    /\ pathPlan_angleSteers m = Fin r
    /\ 0 <= r /\ r <= 0.01 * 15 * (180 / pi) + 0.
Proof.
  let r := eval vm_compute in (step Scenario.planner Scenario.crawl) in
  match r with
  | Ok (?s', ?m) =>
      assert (Hstep : step Scenario.planner Scenario.crawl = Ok (s', m))
        by (vm_compute; reflexivity);
      exists s', m
  end.
  destruct (published_angle_between_wheel_and_request _ _ _ _ _ _ Hstep)
    as (dd & Hsrc & Hbetween).
  cbn in Hsrc. injection Hsrc as <-.
  destruct (Hbetween (0.01 * 15 * (180 / pi) + 0) eq_refl) as (r & Hr & Hup & _).
  exists r. split; [exact Hstep|]. split; [exact Hr|].
  apply Hup. vm_compute. discriminate.
Defined.

Lemma div_zero (a b : Q) : b == 0 -> div a b = Raise ZeroDivisionError.
Proof.
  intros H. unfold div. apply Qeq_bool_iff in H. now rewrite H.
Qed.

(** X15: a tick raises [ZeroDivisionError] exactly when the steer ratio
    the vehicle model exposes after [update_params] is zero; the floor of
    0.1 on the ratio handed to [update_params] protects the tick only as
    far as the model hands that ratio back. *)
Theorem update_zero_division_iff self sm CP ext :
  update self sm CP ext = Raise ZeroDivisionError <-> sR (VM_of sm ext) == 0.
Proof.
  unfold update. fold (VM_of sm ext).
  destruct (if global_override self sm then _ else _) as [[[s d] p] w].
  unfold calc_states_after_delay.
  split.
  - intros H.
    destruct (Qeq_dec (sR (VM_of sm ext)) 0) as [Hz | Hnz]; [exact Hz | exfalso].
    rewrite !(div_ok _ _ Hnz) in H. cbn [bind] in H.
    destruct (controlsState_active sm).
    + unfold index in H.
      destruct (nth_error (log_delta _) 1); cbn [bind] in H; [|discriminate H].
      destruct (nth_error (log_rate _) 0); cbn [bind] in H; [|discriminate H].
      destruct (existsb isnan _); cbn [bind] in H; discriminate H.
    + cbn [bind] in H. destruct (existsb isnan _); cbn [bind] in H; discriminate H.
  - intros Hz. rewrite (div_zero _ _ Hz). reflexivity.
Qed.

Lemma consecutive_bad_solutions_witness :
  exists self' msgs,
    run Scenario.planner
      [Scenario.cruise Scenario.costly; Scenario.cruise Scenario.broken;
       Scenario.cruise Scenario.costly] = Ok (self', msgs)
    /\ solution_invalid_cnt self' = 3%Z
    /\ map pathPlan_mpcSolutionValid msgs = [true; true; false].
Proof.
  let r := eval vm_compute in
    (run Scenario.planner
       [Scenario.cruise Scenario.costly; Scenario.cruise Scenario.broken;
        Scenario.cruise Scenario.costly]) in
  match r with
  | Ok (?s, ?ms) =>
      assert (Hrun : run Scenario.planner
                       [Scenario.cruise Scenario.costly; Scenario.cruise Scenario.broken;
                        Scenario.cruise Scenario.costly] = Ok (s, ms))
        by (vm_compute; reflexivity);
      exists s, ms
  end.
  split; [exact Hrun|].
  match type of Hrun with
  | run _ ?ts = _ =>
      assert (Hbad : all_bad Scenario.planner ts)
        by (vm_compute; repeat split)
  end.
  destruct (consecutive_bad_solutions _ _ _ _ Hbad Hrun) as [Hcnt Hmsgs].
  split; [exact Hcnt|].
  cbn [map]. rewrite (Hmsgs 0%nat _ eq_refl), (Hmsgs 1%nat _ eq_refl),
    (Hmsgs 2%nat _ eq_refl). reflexivity.
Defined.

(** ** The lane lines during a lane change *)

(** X17: the lane planner that [update_d_poly] works on has the parsed
    lane-line probabilities when no lane-change desire is published, and
    otherwise probabilities scaled by [lane_change_ll_prob]; from
    construction on the scaling never raises a non-negative probability
    nor makes it negative, and polynomials and lane width are handed over
    as parsed. *)
Theorem lane_lines_attenuated CP params LP0 ticks self msgs t self' m :
  run (init CP params LP0) ticks = Ok (self, msgs) ->
  step self t = Ok (self', m) ->
  let parsed := LP_parse_model (tick_ext t) (LP self) in
  exists handed : LanePlanner,
    LP self' = LP_update_d_poly (tick_ext t) handed (vEgo (carState (tick_sm t)))
    /\ (pathPlan_desire m = Desire_none -> handed = parsed)
    /\ (pathPlan_desire m <> Desire_none ->
        handed = attenuate parsed (lane_change_ll_prob self'))
    /\ (0 <= l_prob parsed -> 0 <= l_prob handed /\ l_prob handed <= l_prob parsed)
    /\ (0 <= r_prob parsed -> 0 <= r_prob handed /\ r_prob handed <= r_prob parsed)
    /\ l_poly handed = l_poly parsed /\ r_poly handed = r_poly parsed
    /\ d_poly handed = d_poly parsed /\ lane_width handed = lane_width parsed.
Proof.
  intros Hrun Hstep parsed.
  assert (Hin : in_unit_interval (lane_change_ll_prob self')).
  { apply (update_ll_prob _ _ _ _ _ _ Hstep).
    apply (run_ll_prob _ _ _ _ Hrun). cbn. unfold in_unit_interval. lra. }
  destruct Hin as [Hlo Hhi].
  destruct (update_frame _ _ _ _ _ _ Hstep)
    as (_ & _ & _ & _ & _ & _ & _ & Hlp & _).
  destruct (update_lane_change _ _ _ _ _ _ Hstep)
    as (_ & _ & _ & _ & _ & _ & _ & Hdes).
  rewrite <- Hdes in Hlp. fold parsed in Hlp.
  eexists. split; [exact Hlp|].
  destruct (pathPlan_desire m); cbn [attenuate l_prob r_prob l_poly r_poly d_poly lane_width].
  - repeat split; try reflexivity; try lra. intros Hn. now contradiction Hn.
  - split; [discriminate|]. split; [reflexivity|].
    repeat split; try reflexivity; nra.
  - split; [discriminate|]. split; [reflexivity|].
    repeat split; try reflexivity; nra.
Qed.

Lemma lane_lines_attenuated_witness :
  exists self msgs self' m,
    run Scenario.planner [Scenario.blinker_fast; Scenario.blinker_fast_torque]
      = Ok (self, msgs)
    /\ step self Scenario.blinker_fast_torque = Ok (self', m)
    /\ pathPlan_desire m = Desire_laneChangeLeft
    /\ exists handed : LanePlanner,
         LP self' = handed
         /\ 0 <= l_prob handed /\ l_prob handed <= 1.
Proof.
  let r := eval vm_compute in
    (run Scenario.planner [Scenario.blinker_fast; Scenario.blinker_fast_torque]) in
  match r with
  | Ok (?s, ?ms) =>
      assert (Hrun : run Scenario.planner
                       [Scenario.blinker_fast; Scenario.blinker_fast_torque]
                     = Ok (s, ms)) by (vm_compute; reflexivity);
      exists s, ms;
      let r' := eval vm_compute in (step s Scenario.blinker_fast_torque) in
      match r' with
      | Ok (?s', ?m) =>
          assert (Hstep : step s Scenario.blinker_fast_torque = Ok (s', m))
            by (vm_compute; reflexivity);
          exists s', m
      end
  end.
  split; [exact Hrun|]. split; [exact Hstep|]. split; [reflexivity|].
  destruct (lane_lines_attenuated _ _ _ _ _ _ _ _ _ Hrun Hstep)
    as (handed & Hlp & _ & _ & Hl & _).
  exists handed. split; [exact Hlp|].
  destruct Hl as [H0 H1]; [cbn; lra|]. split; [exact H0|].
  cbn in H1. exact H1.
Defined.

(** X18: the fade is complete before the state advances: Starting is left
    for Finishing only with the lane-line probability below 0.01 and the
    model's lane-change probability below 0.02, and Finishing is left for
    Done only with the lane-line probability above 0.99. *)
Theorem fade_complete_before_advance self sm CP ext self' m :
  update self sm CP ext = Ok (self', m) ->
  (lane_change_state self = laneChangeStarting ->
   lane_change_state self' = laneChangeFinishing ->
   lane_change_ll_prob self' < 0.01
   /\ l_lane_change_prob (LP_parse_model ext (LP self))
      + r_lane_change_prob (LP_parse_model ext (LP self)) < 0.02)
  /\ (lane_change_state self = laneChangeFinishing ->
      lane_change_state self' = laneChangeDone ->
      0.99 < lane_change_ll_prob self').
Proof.
  intros H. destruct (update_lane_change _ _ _ _ _ _ H) as (Hlc & _).
  destruct (global_override self sm).
  - destruct Hlc as (Hoff & _). split; congruence.
  - destruct Hlc as (Hst & _). unfold state_transitions in Hst.
    split; intros Hs Hs'; rewrite Hs in Hst;
      cbn [LaneChangeState_eqb andb] in Hst.
    + match type of Hst with (if ?c then _ else _) = _ => destruct c eqn:Hc end;
        injection Hst as Hst1 Hp _; [|congruence].
      apply andb_true_iff in Hc. destruct Hc as [Hprob Hll].
      apply ltb_true_iff in Hprob. apply ltb_true_iff in Hll.
      rewrite <- Hp. split; assumption.
    + match type of Hst with (if ?c then _ else _) = _ => destruct c eqn:Hc end;
        injection Hst as Hst1 Hp _; [|congruence].
      apply andb_true_iff in Hc. destruct Hc as [_ Hll].
      apply gtb_true_iff in Hll. now rewrite <- Hp.
Qed.

Lemma fade_complete_before_advance_witness :
  exists self msgs self' m,
    run Scenario.planner
      (Scenario.blinker_fast :: repeat Scenario.blinker_fast_torque 13)
      = Ok (self, msgs)
    /\ step self Scenario.blinker_fast_torque = Ok (self', m)
    /\ lane_change_state self = laneChangeStarting
    /\ lane_change_state self' = laneChangeFinishing
    /\ lane_change_ll_prob self' < 0.01.
Proof.
  let r := eval vm_compute in
    (run Scenario.planner
       (Scenario.blinker_fast :: repeat Scenario.blinker_fast_torque 13)) in
  match r with
  | Ok (?s, ?ms) =>
      assert (Hrun : run Scenario.planner
                       (Scenario.blinker_fast :: repeat Scenario.blinker_fast_torque 13)
                     = Ok (s, ms)) by (vm_compute; reflexivity);
      exists s, ms;
      let r' := eval vm_compute in (step s Scenario.blinker_fast_torque) in
      match r' with
      | Ok (?s', ?m) =>
          assert (Hstep : step s Scenario.blinker_fast_torque = Ok (s', m))
            by (vm_compute; reflexivity);
          exists s', m
      end
  end.
  split; [exact Hrun|]. split; [exact Hstep|].
  split; [reflexivity|]. split; [reflexivity|].
  destruct (fade_complete_before_advance _ _ _ _ _ _ Hstep) as [Hfade _].
  exact (proj1 (Hfade eq_refl eq_refl)).
Defined.

(** X19: auto-start.  In PreLaneChange, on a tick without global override,
    at or above the lane-change speed and with no blindspot asserted on
    the side of the blinker, a non-zero auto-start delay that is below the
    wait timer as this tick leaves it starts the lane change without any
    torque from the driver: the tick ends in Starting and publishes the
    desire of that side. *)
Theorem auto_start_after_delay self sm CP ext self' m :
  update self sm CP ext = Ok (self', m) ->
  lane_change_state self = preLaneChange ->
  ~ override_condition self sm ->
  LANE_CHANGE_SPEED_MIN <= vEgo (carState sm) ->
  ~ blindspot_on (carState sm) (if leftBlinker (carState sm) then left else right) ->
  ~ lane_change_auto_delay self == 0 ->
  lane_change_auto_delay self < lane_change_wait_timer self' ->
  lane_change_state self' = laneChangeStarting
  /\ pathPlan_desire m
     = (if leftBlinker (carState sm) then Desire_laneChangeLeft
        else Desire_laneChangeRight).
Proof.
  intros H Hs Hov Hv Hbs Had Hw.
  destruct (update_lane_change _ _ _ _ _ _ H)
    as (Hlc & _ & _ & _ & _ & _ & _ & Hdes).
  rewrite <- global_override_iff in Hov.
  destruct (global_override self sm) eqn:Hg; [now contradiction Hov|].
  destruct Hlc as (Hst & Hdir).
  apply global_override_false in Hg. destruct Hg as (_ & _ & Hob & _).
  destruct (latch_direction_one_blinker sm (lane_change_direction self) Hob)
    as [Hside _].
  rewrite Hside in Hst, Hdir.
  unfold state_transitions in Hst. fold (one_blinker sm) in Hst.
  rewrite Hs, Hob in Hst. cbn [LaneChangeState_eqb andb negb orb] in Hst.
  apply ltb_false_iff in Hv. rewrite Hv in Hst.
  assert (Hwt : lane_change_wait_timer self' = lane_change_wait_timer self + DT_MDL).
  { match type of Hst with (if ?c then _ else _) = _ => destruct c end;
      now injection Hst as _ _ <-. }
  rewrite Hwt in Hw.
  apply truthy_true_iff in Had. apply gtb_true_iff in Hw. rewrite Had, Hw in Hst.
  cbn [andb] in Hst. rewrite orb_true_r, andb_true_r in Hst.
  assert (Hnb : (leftBlindspot (carState sm)
                 && LaneChangeDirection_eqb
                      (if leftBlinker (carState sm) then left else right) left
                 || rightBlindspot (carState sm)
                    && LaneChangeDirection_eqb
                         (if leftBlinker (carState sm) then left else right) right)
                = false).
  { unfold blindspot_on in Hbs.
    destruct (leftBlinker (carState sm)), (leftBlindspot (carState sm)),
      (rightBlindspot (carState sm)); cbn; try reflexivity;
      exfalso; apply Hbs; tauto. }
  rewrite Hnb in Hst. cbn [negb] in Hst. injection Hst as Hs' _ _.
  split; [congruence|].
  rewrite Hdes, Hdir, <- Hs'. now destruct (leftBlinker (carState sm)).
Qed.

Lemma auto_start_after_delay_witness :
  exists self msgs self' m,
    run Scenario.planner
      (Scenario.blinker_fast :: repeat Scenario.blinker_fast_blindspot 45)
      = Ok (self, msgs)
    /\ step self Scenario.blinker_fast = Ok (self', m)
    /\ lane_change_state self = preLaneChange
    /\ lane_change_state self' = laneChangeStarting
    /\ pathPlan_desire m = Desire_laneChangeLeft.
Proof.
  let r := eval vm_compute in
    (run Scenario.planner
       (Scenario.blinker_fast :: repeat Scenario.blinker_fast_blindspot 45)) in
  match r with
  | Ok (?s, ?ms) =>
      assert (Hrun : run Scenario.planner
                       (Scenario.blinker_fast
                          :: repeat Scenario.blinker_fast_blindspot 45)
                     = Ok (s, ms)) by (vm_compute; reflexivity);
      exists s, ms;
      let r' := eval vm_compute in (step s Scenario.blinker_fast) in
      match r' with
      | Ok (?s', ?m) =>
          assert (Hstep : step s Scenario.blinker_fast = Ok (s', m))
            by (vm_compute; reflexivity);
          exists s', m
      end
  end.
  split; [exact Hrun|]. split; [exact Hstep|].
  split; [reflexivity|].
  match type of Hstep with
  | step ?s ?t = Ok (?s', _) =>
      assert (Hov : ~ override_condition s (tick_sm t))
        by (rewrite <- global_override_iff; vm_compute; discriminate);
      assert (Hv : LANE_CHANGE_SPEED_MIN <= vEgo (carState (tick_sm t)))
        by (vm_compute; discriminate);
      assert (Hbs : ~ blindspot_on (carState (tick_sm t))
                      (if leftBlinker (carState (tick_sm t)) then left else right))
        by (intros [[Hb _] | [Hb _]]; discriminate Hb);
      assert (Had : ~ lane_change_auto_delay s == 0)
        by (vm_compute; discriminate);
      assert (Hw : lane_change_auto_delay s < lane_change_wait_timer s')
        by (vm_compute; reflexivity)
  end.
  exact (auto_start_after_delay _ _ _ _ _ _ Hstep eq_refl Hov Hv Hbs Had Hw).
Defined.
